(** * The persona writer: text analysis, persona synthesis and templated replies

    A shallow embedding of the client-side engine of the persona writer
    (class [PersonaWriter]): the tokenizer and sentence splitter, the
    feature extractors behind [analyzeText], the persona synthesis
    ([generatePersonaName], [mapTraits], [generateTagline]) and the
    templated response generator ([generateResponse] and the functions it
    calls).

    Conventions of the embedding.
    - A JavaScript string is a sequence of UTF-16 code units.  The model
      covers the code units U+0000..U+00FF (Rocq's [ascii], read as
      Latin-1).  On that range [toLowerCase], the regular-expression
      classes [\w], [\s], [\b], the [i] flag and [trim] are modelled exactly.
    - A JavaScript number is an IEEE double.  The model keeps the special
      values [NaN], [Infinity] and [-Infinity] and computes finite values
      exactly over the rationals (kept in lowest terms), so that a division
      by zero behaves as in the source; rounding is not modelled and no
      statement below depends on it.
    - [Math.random] is an explicit source of draws from [0,1) threaded
      through the functions that call it, in the call order of the source. *)

From Stdlib Require Import List String Ascii Bool Arith ZArith NArith QArith Qround Lia Sorted
  Permutation.
Import ListNotations.

Local Close Scope Q_scope.
Local Open Scope string_scope.
Local Open Scope list_scope.
Local Open Scope nat_scope.

(** ** Numbers *)

Module Num.

Local Open Scope Q_scope.

Inductive number : Type :=
| Fin (q : Q)
| PosInf
| NegInf
| NaN.

Definition Qlt_bool (a b : Q) : bool := negb (Qle_bool b a).

Definition of_nat (n : nat) : number := Fin (inject_Z (Z.of_nat n)).
Definition of_Z (z : Z) : number := Fin (inject_Z z).

(** [a + b] *)
Definition add (a b : number) : number :=
  match a, b with
  | NaN, _ | _, NaN => NaN
  | PosInf, NegInf | NegInf, PosInf => NaN
  | PosInf, _ | _, PosInf => PosInf
  | NegInf, _ | _, NegInf => NegInf
  | Fin x, Fin y => Fin (Qred (x + y))
  end.

Definition sign_inf (neg : bool) : number := if neg then NegInf else PosInf.

(** [a * b] *)
Definition mul (a b : number) : number :=
  match a, b with
  | NaN, _ | _, NaN => NaN
  | Fin x, Fin y => Fin (Qred (x * y))
  | Fin x, PosInf | PosInf, Fin x =>
      if Qeq_bool x 0 then NaN else sign_inf (Qlt_bool x 0)
  | Fin x, NegInf | NegInf, Fin x =>
      if Qeq_bool x 0 then NaN else sign_inf (negb (Qlt_bool x 0))
  | PosInf, PosInf | NegInf, NegInf => PosInf
  | PosInf, NegInf | NegInf, PosInf => NegInf
  end.

(** [a / b]; every zero divisor met in the source is a non-negative count
    or a product of one, hence [+0]. *)
Definition div (a b : number) : number :=
  match a, b with
  | NaN, _ | _, NaN => NaN
  | Fin x, Fin y =>
      if Qeq_bool y 0
      then (if Qeq_bool x 0 then NaN else sign_inf (Qlt_bool x 0))
      else Fin (Qred (x / y))
  | Fin _, (PosInf | NegInf) => Fin 0
  | (PosInf | NegInf), (PosInf | NegInf) => NaN
  | PosInf, Fin y => sign_inf (Qlt_bool y 0)
  | NegInf, Fin y => sign_inf (negb (Qlt_bool y 0))
  end.

(** [a > b] and [a < b]: false as soon as one side is [NaN]. *)
Definition gt (a b : number) : bool :=
  match a, b with
  | NaN, _ | _, NaN => false
  | Fin x, Fin y => Qlt_bool y x
  | PosInf, PosInf => false
  | PosInf, _ => true
  | _, PosInf => false
  | NegInf, _ => false
  | Fin _, NegInf => true
  end.

Definition lt (a b : number) : bool := gt b a.

(** [Math.min(a, b)] and [Math.max(a, b)]: [NaN] if either argument is. *)
Definition min (a b : number) : number :=
  match a, b with
  | NaN, _ | _, NaN => NaN
  | _, _ => if lt b a then b else a
  end.

Definition max (a b : number) : number :=
  match a, b with
  | NaN, _ | _, NaN => NaN
  | _, _ => if gt b a then b else a
  end.

(** The closed interval [0,1]. *)
Definition in_unit (a : number) : Prop :=
  match a with
  | Fin q => (0 <= q /\ q <= 1)%Q
  | _ => False
  end.

End Num.

Import Num.

(** ** Strings *)

Definition code (c : ascii) : N := N_of_ascii c.

Definition between (lo hi : N) (c : ascii) : bool :=
  ((lo <=? code c) && (code c <=? hi))%N.

Definition isUpper (c : ascii) : bool := between 65 90 c.
Definition isLower (c : ascii) : bool := between 97 122 c.
Definition isDigit (c : ascii) : bool := between 48 57 c.

(** [\w] is [[A-Za-z0-9_]]. *)
Definition isWord (c : ascii) : bool :=
  isUpper c || isLower c || isDigit c || (code c =? 95)%N.

(** [\s], which is also what [trim] strips: TAB, LF, VT, FF, CR, SP, NBSP. *)
Definition isSpace (c : ascii) : bool :=
  between 9 13 c || (code c =? 32)%N || (code c =? 160)%N.

Definition shift (c : ascii) (d : Z) : ascii :=
  ascii_of_N (Z.to_N (Z.of_N (code c) + d)).

(** [toLowerCase] on one code unit: A-Z, and the Latin-1 capitals
    U+00C0..U+00DE without the multiplication sign U+00D7. *)
Definition lowerChar (c : ascii) : ascii :=
  if isUpper c then shift c 32
  else if between 192 222 c && negb (code c =? 215)%N then shift c 32
  else c.

Fixpoint toLowerCase (s : string) : string :=
  match s with
  | EmptyString => EmptyString
  | String c s' => String (lowerChar c) (toLowerCase s')
  end.

(** Canonicalisation of a code unit under the [i] flag (upper-casing);
    the two Latin-1 letters whose capital lies outside Latin-1 keep a value
    that no other unit shares. *)
Definition canonChar (c : ascii) : ascii :=
  if isLower c then shift c (-32)
  else if between 224 254 c && negb (code c =? 247)%N then shift c (-32)
  else c.

Definition eqi (c d : ascii) : bool := Ascii.eqb (canonChar c) (canonChar d).

(** [s.includes(k)] on strings. *)
Fixpoint includes (s k : string) : bool :=
  prefix k s ||
  match s with
  | EmptyString => false
  | String _ s' => includes s' k
  end.

(** [array.includes(x)] on arrays of strings. *)
Definition arrayIncludes (l : list string) (x : string) : bool :=
  existsb (String.eqb x) l.

Fixpoint trimStart (s : string) : string :=
  match s with
  | EmptyString => EmptyString
  | String c s' => if isSpace c then trimStart s' else s
  end.

(** [trimEnd], by dropping a character when it is a space and everything
    after it has been trimmed away. *)
Fixpoint trimEnd (s : string) : string :=
  match s with
  | EmptyString => EmptyString
  | String c s' =>
      match trimEnd s' with
      | EmptyString => if isSpace c then EmptyString else String c EmptyString
      | t => String c t
      end
  end.

Definition trim (s : string) : string := trimEnd (trimStart s).

(** [s.split(re)] for a regular expression [re] of the shape [[class]+]:
    the parts between the maximal runs of delimiter characters.  [cur] is
    the part being read, [inrun] tells that the previous character was a
    delimiter. *)
Fixpoint splitRunsFrom (delim : ascii -> bool) (s cur : string) (inrun : bool)
  : list string :=
  match s with
  | EmptyString => [cur]
  | String c s' =>
      if delim c
      then (if inrun then splitRunsFrom delim s' EmptyString true
            else cur :: splitRunsFrom delim s' EmptyString true)
      else splitRunsFrom delim s' (cur ++ String c EmptyString)%string false
  end.

Definition splitRuns (delim : ascii -> bool) (s : string) : list string :=
  splitRunsFrom delim s EmptyString false.

(** [s.split(' ')]: split at every single space. *)
Fixpoint splitAtFrom (sep : ascii) (s cur : string) : list string :=
  match s with
  | EmptyString => [cur]
  | String c s' =>
      if Ascii.eqb c sep then cur :: splitAtFrom sep s' EmptyString
      else splitAtFrom sep s' (cur ++ String c EmptyString)%string
  end.

Definition splitAt (sep : ascii) (s : string) : list string :=
  splitAtFrom sep s EmptyString.

(** [s.replace(/[^\w\s]/g, ' ')] *)
Fixpoint blankPunctuation (s : string) : string :=
  match s with
  | EmptyString => EmptyString
  | String c s' =>
      String (if isWord c || isSpace c then c else " "%char) (blankPunctuation s')
  end.

(** *** Tokenizer and sentence splitter *)

Definition tokenize (text : string) : list string :=
  filter (fun word => (0 <? String.length word)%nat)
         (splitRuns isSpace (blankPunctuation (toLowerCase text))).

Definition isTerminator (c : ascii) : bool :=
  Ascii.eqb c "."%char || Ascii.eqb c "!"%char || Ascii.eqb c "?"%char.

Definition splitSentences (text : string) : list string :=
  filter (fun s => (0 <? String.length (trim s))%nat) (splitRuns isTerminator text).

(** ** Feature extractors *)

Inductive Polarity : Type := positive | negative | neutral.

Record Sentiment : Type := mkSentiment {
  polarity : Polarity;
  strength : number
}.

Definition positiveWords : list string :=
  [ "love"; "enjoy"; "amazing"; "awesome"; "great"; "excellent"; "wonderful";
    "fantastic"; "brilliant"; "incredible"; "perfect"; "beautiful"; "happy";
    "excited"; "passionate"; "thrilled"; "delighted"; "pleased"; "satisfied";
    "good"; "nice"; "cool"; "fun"; "interesting"; "fascinating"; "inspiring" ].

Definition negativeWords : list string :=
  [ "hate"; "terrible"; "awful"; "horrible"; "bad"; "worst"; "disappointing";
    "frustrated"; "annoyed"; "upset"; "angry"; "sad"; "depressed"; "boring";
    "stupid"; "difficult"; "problem"; "issue"; "concern"; "worry"; "fear" ].

(** One round of the [forEach] of [analyzeSentiment] on the pair
    (positiveScore, negativeScore). *)
Definition sentimentStep (acc : nat * nat) (token : string) : nat * nat :=
  let '(positiveScore, negativeScore) := acc in
  let positiveScore :=
    if arrayIncludes positiveWords token then S positiveScore else positiveScore in
  let negativeScore :=
    if arrayIncludes negativeWords token then S negativeScore else negativeScore in
  (positiveScore, negativeScore).

Definition analyzeSentiment (tokens : list string) : Sentiment :=
  let '(positiveScore, negativeScore) := fold_left sentimentStep tokens (0, 0) in
  let netScore := (Z.of_nat positiveScore - Z.of_nat negativeScore)%Z in
  let totalEmotional := positiveScore + negativeScore in
  if totalEmotional =? 0 then mkSentiment neutral (Fin (3 # 10))
  else
    let strength :=
      Num.min (mul (div (of_nat totalEmotional) (of_nat (List.length tokens)))
                   (of_nat 10))
              (of_nat 1) in
    if (netScore >? 0)%Z then mkSentiment positive strength
    else if (netScore <? 0)%Z then mkSentiment negative strength
    else mkSentiment neutral strength.

Definition formalIndicators : list string :=
  [ "furthermore"; "moreover"; "consequently"; "therefore"; "however";
    "nevertheless"; "approximately"; "significant"; "substantial"; "comprehensive";
    "expertise"; "professional"; "experience"; "responsibility"; "objective" ].

Definition informalIndicators : list string :=
  [ "yeah"; "cool"; "awesome"; "gonna"; "wanna"; "kinda"; "sorta";
    "hey"; "yo"; "dude"; "buddy"; "stuff"; "things"; "pretty";
    "really"; "super"; "totally"; "definitely"; "absolutely" ].

(** Is the character that follows (none at the end of the text) a
    non-word character?  This is [\b] after a word character. *)
Definition endsWord (rest : string) : bool :=
  match rest with
  | EmptyString => true
  | String c _ => negb (isWord c)
  end.

(** Does [s] start with [p], followed by a word boundary? *)
Fixpoint startsWithWord (p s : string) : bool :=
  match p, s with
  | EmptyString, _ => endsWord s
  | String a p', String b s' => Ascii.eqb a b && startsWithWord p' s'
  | String _ _, EmptyString => false
  end.

(** The number of matches of [/'(ll|re|ve|d|t|s)\b/g] in the text.  Every
    match starts at an apostrophe, so matches cannot overlap. *)
Fixpoint countContractions (text : string) : nat :=
  match text with
  | EmptyString => 0
  | String c rest =>
      (if Ascii.eqb c "'"%char &&
          existsb (fun alt => startsWithWord alt rest) ["ll"; "re"; "ve"; "d"; "t"; "s"]
       then 1 else 0) + countContractions rest
  end.

(** The number of matches of [/!/g] in the text. *)
Fixpoint countExclamations (text : string) : nat :=
  match text with
  | EmptyString => 0
  | String c rest => (if Ascii.eqb c "!"%char then 1 else 0) + countExclamations rest
  end.

(** The number of matches of [/\b[A-Z]{2,}\b/g]: the maximal runs of word
    characters that are made of two or more capitals only.  [run] is the
    length of the run of word characters read so far and [caps] tells that
    it holds capitals only. *)
Fixpoint countCapitalWordsFrom (text : string) (run : nat) (caps : bool) : nat :=
  match text with
  | EmptyString => if caps && (2 <=? run) then 1 else 0
  | String c rest =>
      if isWord c then countCapitalWordsFrom rest (S run) (caps && isUpper c)
      else (if caps && (2 <=? run) then 1 else 0) + countCapitalWordsFrom rest 0 true
  end.

Definition countCapitalWords (text : string) : nat :=
  countCapitalWordsFrom text 0 true.

Definition formalityStep (acc : nat * nat) (token : string) : nat * nat :=
  let '(formalScore, informalScore) := acc in
  let formalScore :=
    if arrayIncludes formalIndicators token then S formalScore else formalScore in
  let informalScore :=
    if arrayIncludes informalIndicators token then S informalScore else informalScore in
  (formalScore, informalScore).

Definition analyzeFormality (text : string) (tokens : list string) : number :=
  let contractions := countContractions text in
  let '(formalScore, informalScore) := fold_left formalityStep tokens (0, 0) in
  let avgSentenceLength :=
    div (of_nat (List.length tokens)) (of_nat (List.length (splitSentences text))) in
  let contractionsRatio := div (of_nat contractions) (of_nat (List.length tokens)) in
  let formalScore := formalScore + (if gt avgSentenceLength (of_nat 20) then 2 else 0) in
  let informalScore :=
    informalScore + (if gt contractionsRatio (Fin (1 # 10)) then 3 else 0) in
  let total := formalScore + informalScore in
  if total =? 0 then Fin (1 # 2)
  else div (of_nat formalScore) (of_nat total).

Definition highEnergyWords : list string :=
  [ "excited"; "amazing"; "awesome"; "incredible"; "fantastic"; "brilliant";
    "love"; "passion"; "adventure"; "explore"; "discover"; "create";
    "energy"; "dynamic"; "vibrant"; "enthusiastic"; "motivated" ].

Definition lowEnergyWords : list string :=
  [ "calm"; "quiet"; "peaceful"; "relaxed"; "gentle"; "soft"; "subtle";
    "comfortable"; "steady"; "stable"; "consistent"; "methodical" ].

Definition energyStep (energyScore : Z) (token : string) : Z :=
  let energyScore :=
    if arrayIncludes highEnergyWords token then (energyScore + 2)%Z else energyScore in
  if arrayIncludes lowEnergyWords token then (energyScore - 1)%Z else energyScore.

Definition analyzeEnergy (text : string) (tokens : list string) : number :=
  let exclamations := countExclamations text in
  let capitalWords := countCapitalWords text in
  let energyScore := fold_left energyStep tokens 0%Z in
  let energyScore := (energyScore + Z.of_nat exclamations * 2)%Z in
  let energyScore := (energyScore + Z.of_nat capitalWords)%Z in
  Num.max (of_nat 0)
    (Num.min (of_nat 1)
       (div (add (of_Z energyScore) (mul (of_nat (List.length tokens)) (Fin (3 # 10))))
            (mul (of_nat (List.length tokens)) (Fin (8 # 10))))).

(** *** Topics *)

Inductive Topic : Type :=
  technology | creativity | business | lifestyle | entertainment | education.

Definition Topic_eqb (a b : Topic) : bool :=
  match a, b with
  | technology, technology | creativity, creativity | business, business
  | lifestyle, lifestyle | entertainment, entertainment | education, education => true
  | _, _ => false
  end.

(** The property name of a topic in the tables of the source. *)
Definition topicName (t : Topic) : string :=
  match t with
  | technology => "technology"
  | creativity => "creativity"
  | business => "business"
  | lifestyle => "lifestyle"
  | entertainment => "entertainment"
  | education => "education"
  end.

Definition topicKeywords (t : Topic) : list string :=
  match t with
  | technology =>
      ["tech"; "computer"; "software"; "programming"; "code"; "digital"; "ai"; "data"]
  | creativity =>
      ["creative"; "art"; "design"; "music"; "writing"; "imagination"; "artistic"]
  | business =>
      ["business"; "management"; "leadership"; "strategy"; "marketing"; "finance"]
  | lifestyle =>
      ["travel"; "food"; "fitness"; "health"; "family"; "friends"; "hobbies"]
  | entertainment =>
      ["movies"; "games"; "books"; "tv"; "sports"; "music"; "shows"]
  | education =>
      ["learning"; "education"; "teaching"; "study"; "knowledge"; "research"]
  end.

(** [Object.keys(topicKeywords)]: the declaration order. *)
Definition topicKeys : list Topic :=
  [technology; creativity; business; lifestyle; entertainment; education].

(** [topicScores[topic]] after the inner [forEach] over the keywords. *)
Definition topicScore (tokens : list string) (topic : Topic) : nat :=
  fold_left
    (fun score keyword =>
       score + List.length (filter (fun token => includes token keyword) tokens))
    (topicKeywords topic) 0.

(** [Object.entries(topicScores)] *)
Definition topicScores (tokens : list string) : list (Topic * nat) :=
  map (fun topic => (topic, topicScore tokens topic)) topicKeys.

(** [Array.prototype.sort] with a comparator is a stable sort: [a] is moved
    behind [b] only when [cmp a b > 0]. *)
Section Sort.
Context {A : Type} (cmp : A -> A -> Z).

Fixpoint sortInsert (x : A) (l : list A) : list A :=
  match l with
  | [] => [x]
  | y :: l' => if (cmp x y >? 0)%Z then y :: sortInsert x l' else x :: l
  end.

Definition sort (l : list A) : list A := fold_right sortInsert [] l.
End Sort.

Definition byScoreDescending (a b : Topic * nat) : Z :=
  (Z.of_nat (snd b) - Z.of_nat (snd a))%Z.

Definition extractTopics (tokens : list string) : list Topic :=
  map fst
    (filter (fun entry => 0 <? snd entry)
       (firstn 3 (sort byScoreDescending (topicScores tokens)))).

(** *** Vocabulary, questions, exclamations *)

Record Vocabulary : Type := mkVocabulary {
  richness : number
}.

(** [analyzeVocabulary]; the list of frequent words is read by no function
    below and is left out of the record. *)
Definition analyzeVocabulary (tokens : list string) : Vocabulary :=
  let uniqueWords := nodup string_dec tokens in
  mkVocabulary (div (of_nat (List.length uniqueWords)) (of_nat (List.length tokens))).

Definition analyzeQuestions (sentences : list string) : number :=
  let questions := List.length (filter (fun s => includes s "?") sentences) in
  div (of_nat questions) (of_nat (List.length sentences)).

Definition analyzeExclamations (sentences : list string) : number :=
  let exclamations := List.length (filter (fun s => includes s "!") sentences) in
  div (of_nat exclamations) (of_nat (List.length sentences)).

(** *** The feature vector

    The punctuation and emoji summaries of the source's record are read by
    none of the functions below and are left out. *)
Record Analysis : Type := mkAnalysis {
  wordCount : nat;
  sentenceCount : nat;
  avgWordsPerSentence : number;
  sentiment : Sentiment;
  formality : number;
  energy : number;
  topics : list Topic;
  vocabulary : Vocabulary;
  questionRatio : number;
  exclamationRatio : number;
  originalText : string
}.

Definition analyzeText (text : string) : Analysis :=
  let tokens := tokenize text in
  let sentences := splitSentences text in
  {| wordCount := List.length tokens;
     sentenceCount := List.length sentences;
     avgWordsPerSentence :=
       div (of_nat (List.length tokens)) (of_nat (List.length sentences));
     sentiment := analyzeSentiment tokens;
     formality := analyzeFormality text tokens;
     energy := analyzeEnergy text tokens;
     topics := extractTopics tokens;
     vocabulary := analyzeVocabulary tokens;
     questionRatio := analyzeQuestions sentences;
     exclamationRatio := analyzeExclamations sentences;
     originalText := text |}.

(** ** The random source *)

Module Random.

(** One result of [Math.random()]: a number in [0,1). *)
Record draw : Type := mkDraw {
  value : Q;
  value_range : Qle_bool 0 value && Qlt_bool value 1 = true
}.

(** The results of the calls to [Math.random] still to come. *)
Definition source : Type := nat -> draw.

(** A computation that calls [Math.random]. *)
Definition Rand (A : Type) : Type := source -> A * source.

Definition ret {A} (a : A) : Rand A := fun s => (a, s).

Definition bind {A B} (m : Rand A) (k : A -> Rand B) : Rand B :=
  fun s => let (a, s') := m s in k a s'.

Definition random : Rand draw := fun s => (s 0, fun n => s (S n)).

End Random.

Import Random.

Declare Scope rand_scope.
Delimit Scope rand_scope with rand.
Notation "x <- m ;; k" := (bind m (fun x => k))
  (at level 61, m at next level, right associativity) : rand_scope.
Local Open Scope rand_scope.

(** [Math.floor(Math.random() * n)] *)
Definition randomIndex (r : draw) (n : nat) : nat :=
  Z.to_nat (Qfloor (value r * inject_Z (Z.of_nat n))).

(** [randomChoice(array)] on an array of strings.  The result is only ever
    spliced into a template literal, where an absent element reads
    "undefined". *)
Definition randomChoice (array : list string) : Rand string :=
  r <- random ;;
  ret (nth (randomIndex r (List.length array)) array "undefined").

(** ** Persona synthesis *)

(** Lookup of a property in an object literal used as a table. *)
Fixpoint lookup {A : Type} (key : string) (table : list (string * A)) : option A :=
  match table with
  | [] => None
  | (k, v) :: rest => if String.eqb key k then Some v else lookup key rest
  end.

Module nameComponents.
Module prefixes.
Definition high_energy := ["Spark"; "Blaze"; "Dash"; "Flash"; "Volt"; "Zap"].
Definition low_energy := ["Zen"; "Calm"; "Sage"; "Peace"; "Gentle"; "Quiet"].
Definition creative := ["Dream"; "Vision"; "Art"; "Muse"; "Pixel"; "Canvas"].
Definition professional := ["Pro"; "Elite"; "Prime"; "Expert"; "Alpha"; "Chief"].
Definition friendly := ["Buddy"; "Sunny"; "Happy"; "Joy"; "Bright"; "Cheer"].
End prefixes.

Definition suffixes : list (string * list string) :=
  [ ("technology", ["Tech"; "Bot"; "Byte"; "Code"; "Data"; "Sync"]);
    ("creativity", ["Art"; "Craft"; "Draw"; "Write"; "Make"; "Create"]);
    ("business", ["Pro"; "Lead"; "Boss"; "Chief"; "Head"; "Star"]);
    ("lifestyle", ["Life"; "Style"; "Vibe"; "Flow"; "Wave"; "Soul"]);
    ("entertainment", ["Fun"; "Play"; "Game"; "Show"; "Joy"; "Laugh"]) ].
End nameComponents.

(** [analysis.topics.includes(t)] *)
Definition topicsInclude (l : list Topic) (t : Topic) : bool :=
  existsb (Topic_eqb t) l.

Definition generatePersonaName (analysis : Analysis) : Rand string :=
  prefix <-
    (if gt (energy analysis) (Fin (7 # 10)) then
       randomChoice nameComponents.prefixes.high_energy
     else if lt (energy analysis) (Fin (3 # 10)) then
       randomChoice nameComponents.prefixes.low_energy
     else if topicsInclude (topics analysis) creativity then
       randomChoice nameComponents.prefixes.creative
     else if gt (formality analysis) (Fin (7 # 10)) then
       randomChoice nameComponents.prefixes.professional
     else
       randomChoice nameComponents.prefixes.friendly) ;;
  suffix <-
    match hd_error (topics analysis) with
    | Some primaryTopic =>
        match lookup (topicName primaryTopic) nameComponents.suffixes with
        | Some list => randomChoice list
        | None => ret "Mind"
        end
    | None => ret "Mind"
    end ;;
  ret (prefix ++ suffix)%string.

Definition mapTraits (analysis : Analysis) : list string :=
  let traits : list string := [] in
  let traits :=
    if gt (formality analysis) (Fin (7 # 10)) then traits ++ ["Professional"]
    else if lt (formality analysis) (Fin (3 # 10)) then traits ++ ["Casual"]
    else traits ++ ["Balanced"] in
  let traits :=
    if gt (energy analysis) (Fin (7 # 10)) then traits ++ ["Energetic"]
    else if lt (energy analysis) (Fin (3 # 10)) then traits ++ ["Calm"]
    else traits ++ ["Moderate"] in
  let traits :=
    if gt (strength (sentiment analysis)) (Fin (5 # 10)) then
      traits ++ [match polarity (sentiment analysis) with
                 | positive => "Optimistic"
                 | _ => "Thoughtful"
                 end]
    else traits in
  let traits :=
    if gt (questionRatio analysis) (Fin (3 # 10)) then traits ++ ["Curious"]
    else traits in
  let traits :=
    if gt (exclamationRatio analysis) (Fin (3 # 10)) then traits ++ ["Expressive"]
    else traits in
  let traits :=
    if topicsInclude (topics analysis) creativity then traits ++ ["Creative"]
    else traits in
  let traits :=
    if topicsInclude (topics analysis) technology then traits ++ ["Tech-Savvy"]
    else traits in
  let traits :=
    if topicsInclude (topics analysis) business then traits ++ ["Strategic"]
    else traits in
  let traits :=
    if gt (richness (vocabulary analysis)) (Fin (7 # 10)) then traits ++ ["Articulate"]
    else traits in
  firstn 5 traits.

Definition defaultTagline : string :=
  "Bringing unique perspective to every conversation.".

Definition taglines : list (string * string) :=
  [ ("creative_high_energy",
     "Turning imagination into reality with boundless creativity!");
    ("creative_low_energy", "Crafting thoughtful art with serene inspiration.");
    ("tech_high_energy", "Coding the future with unstoppable innovation!");
    ("tech_low_energy", "Building tomorrow's solutions with methodical precision.");
    ("professional_high_energy", "Leading dynamic teams to extraordinary results!");
    ("professional_low_energy", "Delivering excellence through strategic thinking.");
    ("friendly_high_energy", "Spreading joy and positive energy everywhere!");
    ("friendly_low_energy", "Creating meaningful connections with gentle wisdom.");
    ("default", defaultTagline) ].

(** The lookup key [`${primaryTopic}_${energyLevel}`] of [generateTagline]. *)
Definition taglineKey (analysis : Analysis) : string :=
  let primaryTopic :=
    match hd_error (topics analysis) with
    | Some t => topicName t
    | None => "default"
    end in
  let energyLevel :=
    if gt (energy analysis) (Fin (6 # 10)) then "high_energy" else "low_energy" in
  (primaryTopic ++ "_" ++ energyLevel)%string.

(** [taglines[key] || taglines.default]; no tagline is the empty string. *)
Definition generateTagline (analysis : Analysis) : string :=
  match lookup (taglineKey analysis) taglines with
  | Some tagline => tagline
  | None => defaultTagline
  end.

(** ** The response generator *)

Module Style.
Record t : Type := mk {
  formality : number;
  energy : number;
  sentiment : Polarity;
  topics : list Topic
}.
End Style.

(** The persona profile, without its identifier and creation date. *)
Record Persona : Type := mkPersona {
  name : string;
  avatar : string;
  tagline : string;
  traits : list string;
  signaturePhrases : list string;
  favoriteWords : list string;
  emojiStyle : string;
  communicationStyle : Style.t;
  analysisData : Analysis
}.

(** *** Contractions *)

Definition isWordAt (c : option ascii) : bool :=
  match c with
  | Some c => isWord c
  | None => false
  end.

(** [\b] between the characters [before] and [after] (none at an end). *)
Definition wordBoundary (before after : option ascii) : bool :=
  xorb (isWordAt before) (isWordAt after).

Definition firstChar (s : string) : option ascii :=
  match s with
  | EmptyString => None
  | String c _ => Some c
  end.

(** Does [pat], read under the [i] flag and followed by [\b], match at the
    head of [s]?  [before] is the character just read. *)
Fixpoint matchesLiteral (pat s : string) (before : option ascii) : bool :=
  match pat with
  | EmptyString => wordBoundary before (firstChar s)
  | String a pat' =>
      match s with
      | EmptyString => false
      | String b s' => eqi a b && matchesLiteral pat' s' (Some b)
      end
  end.

(** [s.replace(/\bpat\b/gi, rep)] for a literal [pat]: the matches are
    replaced from left to right and the search resumes after each match.
    [skip] counts the characters of the current match not yet passed. *)
Fixpoint replaceFrom (pat rep s : string) (before : option ascii) (skip : nat)
  : string :=
  match s with
  | EmptyString => EmptyString
  | String c s' =>
      match skip with
      | S k => replaceFrom pat rep s' (Some c) k
      | O =>
          if wordBoundary before (Some c) && matchesLiteral pat s before
          then (rep ++ replaceFrom pat rep s' (Some c) (String.length pat - 1))%string
          else String c (replaceFrom pat rep s' (Some c) 0)
      end
  end.

Definition replaceWord (pat rep s : string) : string :=
  replaceFrom pat rep s None 0.

Definition makeFormal (response : string) : string :=
  replaceWord "you're" "you are"
    (replaceWord "I'm" "I am"
       (replaceWord "won't" "will not"
          (replaceWord "can't" "cannot"
             (replaceWord "that's" "that is" response)))).

Definition makeInformal (response : string) : string :=
  replaceWord "you are" "you're"
    (replaceWord "I am" "I'm"
       (replaceWord "will not" "won't"
          (replaceWord "cannot" "can't"
             (replaceWord "that is" "that's" response)))).

(** *** Templates *)

Definition questionWords : list string :=
  ["what"; "how"; "why"; "when"; "where"; "who"; "which"].

Definition answerTemplates_general : list string :=
  [ "That's an interesting question!";
    "Let me think about that...";
    "You know what?";
    "Here's what I think:" ].

Definition answerTemplates : list (string * list string) :=
  [ ("what",
     [ "That's a great question! From my perspective,";
       "I think what's really important here is";
       "You know, I've always believed that";
       "That's something I've thought about, and" ]);
    ("how",
     [ "Here's how I see it:";
       "My approach would be to";
       "I've found that the best way is";
       "From my experience, you can" ]);
    ("why",
     [ "That's because";
       "The reason I think that is";
       "Well, in my opinion";
       "I believe it's because" ]);
    ("general", answerTemplates_general) ].

Definition reactionTemplates (reactionType : Polarity) : list string :=
  match reactionType with
  | positive =>
      [ "I love that!"; "That sounds amazing!"; "Absolutely!"; "That's fantastic!";
        "I'm so glad you mentioned that!" ]
  | negative =>
      [ "I understand what you mean."; "That can be challenging.";
        "I hear you on that."; "That's tough to deal with.";
        "I get where you're coming from." ]
  | neutral =>
      [ "Interesting!"; "That's a good point."; "I see what you're saying.";
        "That makes sense."; "Tell me more about that." ]
  end.

Definition elaborations : list (string * list string) :=
  [ ("technology",
     [ "Technology is constantly evolving and shaping our future.";
       "The digital world offers incredible possibilities.";
       "Innovation drives progress in amazing ways.";
       "Tech solutions can solve so many problems." ]);
    ("creativity",
     [ "Creativity is the spark that ignites amazing ideas.";
       "Art and imagination make life so much richer.";
       "There's beauty in every creative expression.";
       "Thinking outside the box opens new possibilities." ]);
    ("business",
     [ "Strategic thinking is key to success.";
       "Leadership requires both vision and execution.";
       "Effective planning makes all the difference.";
       "Professional growth comes from continuous learning." ]);
    ("lifestyle",
     [ "Life is all about finding balance and joy.";
       "Personal experiences shape who we become.";
       "Every day brings new opportunities.";
       "It's important to enjoy the journey." ]) ].

(** The clarifying questions of [generateFollowUp]. *)
Definition followUps : list string :=
  [ "What's your take on that?";
    "Have you experienced something similar?";
    "I'd love to hear more about your thoughts.";
    "What do you think about it?";
    "How do you see it from your perspective?";
    "What's been your experience with that?" ].

(** The generic reflective lines of [generateFollowUp]. *)
Definition reflectiveFollowUps : list string :=
  [ "That's something worth considering.";
    "It's always interesting to explore different ideas.";
    "There's so much to learn from different perspectives." ].

Definition enthusiasticFollowUp : string :=
  "I find that really exciting to think about!".

(** *** Generation *)

Definition generateElaboration (userTokens : list string) (persona : Persona)
  : Rand string :=
  let topics := Style.topics (communicationStyle persona) in
  let favoriteWords := favoriteWords persona in
  let relevantTopic :=
    find (fun topic =>
            existsb (fun token => includes token (topicName topic)) userTokens)
         topics in
  let library :=
    match relevantTopic with
    | Some topic => lookup (topicName topic) elaborations
    | None => None
    end in
  match library with
  | Some list => randomChoice list
  | None =>
      if 0 <? List.length favoriteWords then
        word <- randomChoice favoriteWords ;;
        ret ("I think " ++ word ++ " is really important in this context.")%string
      else ret "It's all about perspective and finding what works best!"
  end.

Definition generateAnswerResponse (userMessage : string) (userTokens : list string)
  (persona : Persona) : Rand string :=
  let questionType :=
    match find (fun word => arrayIncludes userTokens word) questionWords with
    | Some word => word
    | None => "general"
    end in
  template <-
    randomChoice match lookup questionType answerTemplates with
                 | Some list => list
                 | None => answerTemplates_general
                 end ;;
  elaboration <- generateElaboration userTokens persona ;;
  ret (template ++ " " ++ elaboration)%string.

Definition generateFollowUp (userTokens : list string) (persona : Persona)
  : Rand string :=
  if arrayIncludes (traits persona) "Curious" then randomChoice followUps
  else if arrayIncludes (traits persona) "Expressive"
          || arrayIncludes (traits persona) "Energetic"
  then ret enthusiasticFollowUp
  else randomChoice reflectiveFollowUps.

Definition generateReactiveResponse (userMessage : string)
  (userTokens : list string) (sentiment : Sentiment) (persona : Persona)
  : Rand string :=
  let reactionType :=
    match polarity sentiment with
    | positive => positive
    | negative => negative
    | neutral => neutral
    end in
  reaction <- randomChoice (reactionTemplates reactionType) ;;
  followUp <- generateFollowUp userTokens persona ;;
  ret (reaction ++ " " ++ followUp)%string.

Definition applyPersonaStyle (response : string) (persona : Persona) : Rand string :=
  let styledResponse := response in
  let styledResponse :=
    if gt (Style.formality (communicationStyle persona)) (Fin (7 # 10)) then
      makeFormal styledResponse
    else if lt (Style.formality (communicationStyle persona)) (Fin (3 # 10)) then
      makeInformal styledResponse
    else styledResponse in
  let styledResponse :=
    if gt (Style.energy (communicationStyle persona)) (Fin (7 # 10)) then
      if negb (includes styledResponse "!") then (styledResponse ++ "!")%string
      else styledResponse
    else styledResponse in
  r <- random ;;
  styledResponse <-
    (if Qlt_bool (value r) (3 # 10) && (0 <? List.length (signaturePhrases persona))
     then
       phrase <- randomChoice (signaturePhrases persona) ;;
       ret (styledResponse ++ " " ++ phrase)%string
     else ret styledResponse) ;;
  r <- random ;;
  (if Qlt_bool (value r) (4 # 10) && (0 <? String.length (emojiStyle persona))%nat
   then
     let emojis := splitAt " "%char (emojiStyle persona) in
     emoji <- randomChoice emojis ;;
     ret (styledResponse ++ " " ++ emoji)%string
   else ret styledResponse).

Definition generateResponse (persona : Persona) (userMessage : string) : Rand string :=
  let userTokens := tokenize (toLowerCase userMessage) in
  let isQuestion := includes userMessage "?" in
  let sentiment := analyzeSentiment userTokens in
  response <-
    (if isQuestion then generateAnswerResponse userMessage userTokens persona
     else generateReactiveResponse userMessage userTokens sentiment persona) ;;
  applyPersonaStyle response persona.

(** ** More of the analysis *)

(** *** Frequent words

    [analyzeVocabulary] counts the tokens in the object [wordFreq] and reads
    it back with [Object.entries].  Its tokens are those of [tokenize], in
    small letters: "constructor" and "__proto__" are the only names that
    [Object.prototype] holds among such keys. *)

(** A value held in [wordFreq]: a count or, for the one key that is first
    read from [Object.prototype], a text. *)
Inductive Freq : Type :=
| Count (n : nat)
| Text.

(** [value + 1] *)
Definition addOne (v : Freq) : Freq :=
  match v with
  | Count n => Count (S n)
  | Text => Text
  end.

(** [(wordFreq[token] || 0) + 1] for a token that is not yet a key of its
    own.  A read of "constructor" finds the inherited function, and a
    function plus one is a text. *)
Definition firstValue (token : string) : Freq :=
  if String.eqb token "constructor" then Text else Count 1.

(** [wordFreq[token] = (wordFreq[token] || 0) + 1] on the own properties in
    creation order. *)
Fixpoint bumpEntry (token : string) (wordFreq : list (string * Freq))
  : list (string * Freq) :=
  match wordFreq with
  | [] => [(token, firstValue token)]
  | (key, v) :: rest =>
      if String.eqb token key then (key, addOne v) :: rest
      else (key, v) :: bumpEntry token rest
  end.

(** One round of the [forEach].  An assignment of a text to "__proto__"
    is ignored and creates no property. *)
Definition countToken (wordFreq : list (string * Freq)) (token : string)
  : list (string * Freq) :=
  if String.eqb token "__proto__" then wordFreq else bumpEntry token wordFreq.

Definition wordFreqOf (tokens : list string) : list (string * Freq) :=
  fold_left countToken tokens [].

(** The number written by a string of decimal digits. *)
Fixpoint digitsValueFrom (s : string) (acc : N) : option N :=
  match s with
  | EmptyString => Some acc
  | String c s' =>
      if isDigit c then digitsValueFrom s' (acc * 10 + (code c - 48))%N
      else None
  end.

(** The array index named by a property key: a canonical decimal numeral
    at most 2^32 - 2. *)
Definition arrayIndex (key : string) : option N :=
  match key with
  | EmptyString => None
  | String c rest =>
      if Ascii.eqb c "0"%char && negb (String.eqb rest "") then None
      else match digitsValueFrom key 0 with
           | Some n => if (n <=? 4294967294)%N then Some n else None
           | None => None
           end
  end.

Definition isArrayIndex (key : string) : bool :=
  match arrayIndex key with
  | Some _ => true
  | None => false
  end.

Definition byIndexAscending {V : Type} (a b : string * V) : Z :=
  match arrayIndex (fst a), arrayIndex (fst b) with
  | Some m, Some n => (Z.of_N m - Z.of_N n)%Z
  | _, _ => 0%Z
  end.

(** [Object.entries(object)]: the array-index keys in ascending order, then
    the other keys in creation order. *)
Definition objectEntries {V : Type} (object : list (string * V)) : list (string * V) :=
  sort byIndexAscending (filter (fun e => isArrayIndex (fst e)) object)
  ++ filter (fun e => negb (isArrayIndex (fst e))) object.

(** [freq > 1] *)
Definition moreThanOnce (v : Freq) : bool :=
  match v with
  | Count n => 1 <? n
  | Text => false
  end.

(** [b[1] - a[1]], with a result that is not a number read as 0 by [sort]. *)
Definition byFrequencyDescending (a b : string * Freq) : Z :=
  match snd a, snd b with
  | Count m, Count n => (Z.of_nat n - Z.of_nat m)%Z
  | _, _ => 0%Z
  end.

(** The field [frequentWords] of the result of [analyzeVocabulary]. *)
Definition frequentWords (tokens : list string) : list string :=
  map fst
    (firstn 8
       (sort byFrequencyDescending
          (filter (fun e => moreThanOnce (snd e) && (3 <? String.length (fst e)))
                  (objectEntries (wordFreqOf tokens))))).

(** *** Punctuation *)

Fixpoint countQuestions (text : string) : nat :=
  match text with
  | EmptyString => 0
  | String c rest => (if Ascii.eqb c "?"%char then 1 else 0) + countQuestions rest
  end.

(** The number of matches of [/\.{2,}/g]: the maximal runs of two or more
    full stops.  [run] is the length of the run read so far. *)
Fixpoint countEllipsesFrom (text : string) (run : nat) : nat :=
  match text with
  | EmptyString => if 2 <=? run then 1 else 0
  | String c rest =>
      if Ascii.eqb c "."%char then countEllipsesFrom rest (S run)
      else (if 2 <=? run then 1 else 0) + countEllipsesFrom rest 0
  end.

Definition countEllipses (text : string) : nat := countEllipsesFrom text 0.

(** The number of matches of [/--?/g]: a match takes two hyphens when it
    can.  [open] tells that the previous character starts a match that can
    still take one more hyphen. *)
Fixpoint countDashesFrom (text : string) (open : bool) : nat :=
  match text with
  | EmptyString => 0
  | String c rest =>
      if Ascii.eqb c "-"%char then
        if open then countDashesFrom rest false
        else 1 + countDashesFrom rest true
      else countDashesFrom rest false
  end.

Definition countDashes (text : string) : nat := countDashesFrom text false.

Inductive PunctuationStyle : Type :=
  enthusiastic | inquisitive | contemplative | expressive | standard.

Record PunctuationCounts : Type := mkCounts {
  exclamation : nat;
  question : nat;
  ellipsis : nat;
  dash : nat
}.

Definition determinePunctuationStyle (counts : PunctuationCounts) : PunctuationStyle :=
  if 2 <? exclamation counts then enthusiastic
  else if 2 <? question counts then inquisitive
  else if 1 <? ellipsis counts then contemplative
  else if 1 <? dash counts then expressive
  else standard.

Record Punctuation : Type := mkPunctuation {
  density : number;
  style : PunctuationStyle
}.

Definition punctuationCounts (text : string) : PunctuationCounts :=
  {| exclamation := countExclamations text;
     question := countQuestions text;
     ellipsis := countEllipses text;
     dash := countDashes text |}.

Definition analyzePunctuation (text : string) : Punctuation :=
  let counts := punctuationCounts text in
  let totalPunctuation :=
    fold_left Nat.add
      [exclamation counts; question counts; ellipsis counts; dash counts] 0 in
  let textLength := String.length text in
  {| density := div (of_nat totalPunctuation) (of_nat textLength);
     style := determinePunctuationStyle counts |}.

(** ** More of the persona synthesis *)

Module phraseTemplates.
Definition high_energy : list string :=
  [ "Let's make it happen!"; "That's absolutely amazing!"; "I'm so excited about this!";
    "This is going to be incredible!"; "Let's dive right in!" ].
Definition low_energy : list string :=
  [ "Let's think about this carefully."; "That's quite interesting.";
    "I see what you mean."; "That makes a lot of sense."; "Let's consider the options." ].
Definition formal : list string :=
  [ "I believe we should consider..."; "In my professional opinion...";
    "Based on my experience..."; "Let's approach this systematically.";
    "The optimal solution would be..." ].
Definition informal : list string :=
  [ "Yeah, totally!"; "That's pretty cool!"; "I'm really into that!";
    "Sounds awesome to me!"; "That's exactly what I mean!" ].
Definition positive_sentiment : list string :=
  [ "I love that idea!"; "That sounds fantastic!"; "This is going great!";
    "Perfect! That's exactly right!"; "I'm really enjoying this!" ].
Definition creativity_topic : list string :=
  [ "Let's think outside the box!"; "That's so creative!"; "I'm inspired by that!";
    "What if we tried something different?"; "Creativity is everything!" ].
Definition technology_topic : list string :=
  [ "That's technically fascinating!"; "Let's optimize this!"; "The future is here!";
    "Innovation at its finest!"; "Technology makes everything possible!" ].
End phraseTemplates.

(** [phrases.push(this.randomChoice(array))] *)
Definition pushChoice (array phrases : list string) : Rand (list string) :=
  phrase <- randomChoice array ;;
  ret (phrases ++ [phrase]).

(** The sentences that [generateSignaturePhrases] may quote: fewer than 8
    space-separated parts once trimmed, and more than 10 characters. *)
Definition isShortSentence (s : string) : bool :=
  (List.length (splitAt " "%char (trim s)) <? 8) && (10 <? String.length s).

Definition generateSignaturePhrases (analysis : Analysis) (originalText : string)
  : Rand (list string) :=
  let phrases : list string := [] in
  phrases <-
    (if gt (energy analysis) (Fin (7 # 10)) then
       pushChoice phraseTemplates.high_energy phrases
     else if lt (energy analysis) (Fin (3 # 10)) then
       pushChoice phraseTemplates.low_energy phrases
     else ret phrases) ;;
  phrases <-
    (if gt (formality analysis) (Fin (7 # 10)) then
       pushChoice phraseTemplates.formal phrases
     else if lt (formality analysis) (Fin (3 # 10)) then
       pushChoice phraseTemplates.informal phrases
     else ret phrases) ;;
  phrases <-
    (match polarity (sentiment analysis) with
     | positive => pushChoice phraseTemplates.positive_sentiment phrases
     | _ => ret phrases
     end) ;;
  phrases <-
    (if topicsInclude (topics analysis) creativity then
       pushChoice phraseTemplates.creativity_topic phrases
     else ret phrases) ;;
  phrases <-
    (if topicsInclude (topics analysis) technology then
       pushChoice phraseTemplates.technology_topic phrases
     else ret phrases) ;;
  let sentences := splitSentences originalText in
  let shortSentences := filter isShortSentence sentences in
  phrases <-
    (if 0 <? List.length shortSentences then
       sentence <- randomChoice shortSentences ;;
       ret (phrases ++ [trim sentence])
     else ret phrases) ;;
  ret (firstn 4 phrases).

(** ** The chat session and the saved personas *)

(** A persona profile with its identifier. *)
Record SavedPersona : Type := mkSaved {
  id : string;
  profile : Persona
}.

Inductive Sender : Type := user | bot.

(** A chat turn, without its time stamp. *)
Record Turn : Type := mkTurn {
  type : Sender;
  message : string
}.

(** The fields of the controller that the functions below read or write;
    the copy of [savedPersonas] kept in the local storage is not modelled. *)
Record PersonaWriter : Type := mkWriter {
  currentPersona : option SavedPersona;
  savedPersonas : list SavedPersona;
  chatHistory : list Turn
}.

(** [array.findIndex(test)], with [None] for -1. *)
Fixpoint findIndex {A : Type} (test : A -> bool) (array : list A) : option nat :=
  match array with
  | [] => None
  | x :: rest =>
      if test x then Some 0
      else match findIndex test rest with
           | Some i => Some (S i)
           | None => None
           end
  end.

(** [array[index] = x] for an index within the array. *)
Fixpoint assignAt {A : Type} (index : nat) (x : A) (array : list A) : list A :=
  match array, index with
  | [], _ => []
  | _ :: rest, 0 => x :: rest
  | y :: rest, S i => y :: assignAt i x rest
  end.

Definition saveCurrentPersona (this : PersonaWriter) : PersonaWriter :=
  match currentPersona this with
  | None => this
  | Some current =>
      let existingIndex :=
        findIndex (fun p => String.eqb (id p) (id current)) (savedPersonas this) in
      match existingIndex with
      | Some index =>
          mkWriter (currentPersona this)
                   (assignAt index current (savedPersonas this))
                   (chatHistory this)
      | None =>
          mkWriter (currentPersona this)
                   (savedPersonas this ++ [current])
                   (chatHistory this)
      end
  end.

Definition loadPersona (personaId : string) (this : PersonaWriter) : PersonaWriter :=
  match find (fun p => String.eqb (id p) personaId) (savedPersonas this) with
  | Some persona => mkWriter (Some persona) (savedPersonas this) (chatHistory this)
  | None => this
  end.

(** [deletePersona]; [confirmed] is the answer to the confirmation dialog. *)
Definition deletePersona (personaId : string) (confirmed : bool) (this : PersonaWriter)
  : PersonaWriter :=
  if confirmed then
    let saved :=
      filter (fun p => negb (String.eqb (id p) personaId)) (savedPersonas this) in
    let current :=
      match currentPersona this with
      | Some p => if String.eqb (id p) personaId then None else Some p
      | None => None
      end in
    mkWriter current saved (chatHistory this)
  else this.

Definition clearAllPersonas (confirmed : bool) (this : PersonaWriter) : PersonaWriter :=
  if confirmed then mkWriter None [] (chatHistory this) else this.

Definition addUserMessage (text : string) (this : PersonaWriter) : PersonaWriter :=
  mkWriter (currentPersona this) (savedPersonas this)
           (chatHistory this ++ [mkTurn user text]).

Definition addBotMessage (text : string) (this : PersonaWriter) : PersonaWriter :=
  mkWriter (currentPersona this) (savedPersonas this)
           (chatHistory this ++ [mkTurn bot text]).

Definition defaultGreeting : string := "Great to meet you!".

(** [generateWelcomeMessage], for the current persona [persona]. *)
Definition generateWelcomeMessage (persona : Persona) : Rand string :=
  let firstPhrase :=
    match signaturePhrases persona with
    | phrase :: _ => if 0 <? String.length phrase then phrase else defaultGreeting
    | [] => defaultGreeting
    end in
  let welcomeTemplates :=
    [ ("Hey there! I'm " ++ name persona ++ ". " ++ firstPhrase)%string;
      ("Hello! " ++ name persona ++ " here. Ready for an interesting conversation?")%string;
      ("Hi! I'm " ++ name persona ++ ", and I'm excited to chat with you today!")%string;
      ("Welcome! I'm " ++ name persona ++ ". "
         ++ hd "undefined" (splitAt "."%char (tagline persona)) ++ ".")%string ] in
  message <- randomChoice welcomeTemplates ;;
  ret (if 0 <? String.length (emojiStyle persona) then
         let firstEmoji := hd "undefined" (splitAt " "%char (emojiStyle persona)) in
         (message ++ " " ++ firstEmoji)%string
       else message).

(** The part of [sendMessage] that runs at once: [input] is the content of
    the chat box. *)
Definition sendMessage (input : string) (this : PersonaWriter) : PersonaWriter :=
  let message := trim input in
  if negb (0 <? String.length message) then this
  else match currentPersona this with
       | None => this
       | Some _ => addUserMessage message this
       end.

(** The part of [sendMessage] that runs after the thinking time, with the
    persona that is current by then; [None] when there is none, where
    [generateResponse] throws. *)
Definition deliverResponse (message : string) (this : PersonaWriter)
  : option (Rand PersonaWriter) :=
  match currentPersona this with
  | None => None
  | Some current =>
      Some (response <- generateResponse (profile current) message ;;
            ret (addBotMessage response this))
  end.

Inductive Engagement : Type := High | Medium | Low.

Record ChatStats : Type := mkStats {
  messages : nat;
  yourMessages : nat;
  aiResponses : nat;
  conversationScore : nat;
  engagementLevel : Engagement
}.

Definition isUser (turn : Turn) : bool :=
  match type turn with user => true | bot => false end.

Definition isBot (turn : Turn) : bool :=
  match type turn with bot => true | user => false end.

(** The figures shown by [updateChatStats]; nothing is shown without a
    current persona. *)
Definition updateChatStats (this : PersonaWriter) : option ChatStats :=
  match currentPersona this with
  | None => None
  | Some _ =>
      let history := chatHistory this in
      Some {| messages := List.length history;
              yourMessages := List.length (filter isUser history);
              aiResponses := List.length (filter isBot history);
              conversationScore := Nat.min 100 (List.length history * 5);
              engagementLevel :=
                if 10 <? List.length history then High
                else if 5 <? List.length history then Medium
                else Low |}
  end.

(** * Vocabulary of the statements *)

(** Do all the characters of [s] satisfy [P]? *)
Fixpoint allChars (P : ascii -> bool) (s : string) : bool :=
  match s with
  | EmptyString => true
  | String c s' => P c && allChars P s'
  end.

(** The string without the characters that satisfy [P]. *)
Fixpoint removeChars (P : ascii -> bool) (s : string) : string :=
  match s with
  | EmptyString => EmptyString
  | String c s' => if P c then removeChars P s' else String c (removeChars P s')
  end.

(** The characters other than [d], and the characters that do not end a
    sentence. *)
Definition notChar (d : ascii) : ascii -> bool := fun c => negb (Ascii.eqb c d).
Definition non (P : ascii -> bool) : ascii -> bool := fun c => negb (P c).
Definition notTerminator : ascii -> bool := non isTerminator.

(** A text written as parts separated by terminators: the part [first],
    then each string of terminators of [rest] followed by its part. *)
Fixpoint joinParts (first : string) (rest : list (string * string)) : string :=
  match rest with
  | [] => first
  | (run, part) :: rest' => (first ++ run ++ joinParts part rest')%string
  end.

(** A string of terminators that is not empty. *)
Definition isSeparator (run : string) : bool :=
  (0 <? String.length run) && allChars isTerminator run.

(** No part holds a terminator, and the parts are separated by strings of
    terminators that are not empty. *)
Definition separated (first : string) (rest : list (string * string)) : bool :=
  allChars notTerminator first
  && forallb (fun rp => isSeparator (fst rp) && allChars notTerminator (snd rp)) rest.

(** A string that holds a character other than white space. *)
Definition notBlank (s : string) : bool := negb (allChars isSpace s).

(** [if (b) traits.push(y)], and [mapTraits] before its truncation, as a
    chain of such pushes. *)
Definition pushIf (b : bool) (y : string) (l : list string) : list string :=
  if b then l ++ [y] else l.

Definition formalityTrait (analysis : Analysis) : string :=
  if gt (formality analysis) (Fin (7 # 10)) then "Professional"
  else if lt (formality analysis) (Fin (3 # 10)) then "Casual"
  else "Balanced".

Definition energyTrait (analysis : Analysis) : string :=
  if gt (energy analysis) (Fin (7 # 10)) then "Energetic"
  else if lt (energy analysis) (Fin (3 # 10)) then "Calm"
  else "Moderate".

Definition sentimentTrait (analysis : Analysis) : string :=
  match polarity (sentiment analysis) with
  | positive => "Optimistic"
  | _ => "Thoughtful"
  end.

Definition conditionalTraits (analysis : Analysis) (base : list string) : list string :=
  pushIf (gt (richness (vocabulary analysis)) (Fin (7 # 10))) "Articulate"
    (pushIf (topicsInclude (topics analysis) business) "Strategic"
       (pushIf (topicsInclude (topics analysis) technology) "Tech-Savvy"
          (pushIf (topicsInclude (topics analysis) creativity) "Creative"
             (pushIf (gt (exclamationRatio analysis) (Fin (3 # 10))) "Expressive"
                (pushIf (gt (questionRatio analysis) (Fin (3 # 10))) "Curious"
                   (pushIf (gt (strength (sentiment analysis)) (Fin (5 # 10)))
                      (sentimentTrait analysis) base)))))).

(** The traits that the first two pushes of [mapTraits] can add. *)
Definition formalityTraits : list string := ["Professional"; "Casual"; "Balanced"].
Definition energyTraits : list string := ["Energetic"; "Calm"; "Moderate"].

(** The number of tokens that belong to a lexicon. *)
Definition lexiconCount (lexicon tokens : list string) : nat :=
  List.length (filter (arrayIncludes lexicon) tokens).

Definition positiveCount : list string -> nat := lexiconCount positiveWords.
Definition negativeCount : list string -> nat := lexiconCount negativeWords.

(** A sample text with its analysis, and a source of draws, for the
    concrete instances. *)
Definition sampleText : string :=
  "I love coding and building innovative software solutions every day! Technology excites me so much!!".

Definition sampleAnalysis : Analysis := Eval vm_compute in analyzeText sampleText.

Definition halfDraw : draw := mkDraw (1 # 2) eq_refl.
Definition tenthDraw : draw := mkDraw (1 # 10) eq_refl.

Definition sampleSource : source :=
  fun n => if Nat.even n then halfDraw else tenthDraw.

(** The reply after the formality step of [applyPersonaStyle]. *)
Definition formalityStyled (persona : Persona) (response : string) : string :=
  if gt (Style.formality (communicationStyle persona)) (Fin (7 # 10)) then
    makeFormal response
  else if lt (Style.formality (communicationStyle persona)) (Fin (3 # 10)) then
    makeInformal response
  else response.

(** A persona made from the sample analysis. *)
Definition samplePersona : Persona :=
  {| name := "FlashSync";
     avatar := "*";
     tagline := generateTagline sampleAnalysis;
     traits := mapTraits sampleAnalysis;
     signaturePhrases := ["Let's optimize this"];
     favoriteWords := [];
     emojiStyle := "";
     communicationStyle :=
       Style.mk (formality sampleAnalysis) (energy sampleAnalysis)
                (polarity (sentiment sampleAnalysis)) (topics sampleAnalysis);
     analysisData := sampleAnalysis |}.

(** The contraction rewrites leave a clarifying question as it is, after
    any reaction. *)
Definition followUpsSurvive (rewrite : string -> string) : bool :=
  forallb (fun reaction =>
             forallb (fun followUp =>
                        includes (rewrite (reaction ++ " " ++ followUp)%string) followUp)
                     followUps)
          (reactionTemplates positive ++ reactionTemplates negative
           ++ reactionTemplates neutral).

(** A stored persona with the trait 'Curious'. *)
Definition curiousPersona : Persona :=
  {| name := "SunnyMind";
     avatar := "*";
     tagline := defaultTagline;
     traits := ["Balanced"; "Moderate"; "Curious"];
     signaturePhrases := ["I see what you mean."];
     favoriteWords := ["garden"];
     emojiStyle := ":) :D";
     communicationStyle := Style.mk (Fin (1 # 2)) (Fin (1 # 2)) neutral [];
     analysisData := sampleAnalysis |}.

(** The position of a topic in the declaration order. *)
Definition declIndex (t : Topic) : nat :=
  match t with
  | technology => 0
  | creativity => 1
  | business => 2
  | lifestyle => 3
  | entertainment => 4
  | education => 5
  end.

(** [a] comes before [b]: its score is higher, or the scores are equal and
    [a] is declared first. *)
Definition precedes (score : Topic -> nat) (a b : Topic) : Prop :=
  score b < score a \/ (score a = score b /\ declIndex a < declIndex b).

(** The number of tokens that contain one keyword. *)
Definition keywordHits (tokens : list string) (keyword : string) : nat :=
  List.length (filter (fun token => includes token keyword) tokens).

(** The score as the specification words it: the number of tokens that
    contain any of the topic's keywords. *)
Definition matchingTokens (tokens : list string) (topic : Topic) : nat :=
  List.length
    (filter (fun token => existsb (fun keyword => includes token keyword)
                                  (topicKeywords topic))
            tokens).

(** The order of the sorted entries: score descending, declaration order
    among equal scores. *)
Definition entryPrecedes (a b : Topic * nat) : Prop :=
  snd b < snd a \/ (snd a = snd b /\ declIndex (fst a) < declIndex (fst b)).

(** The order of the entries of [Object.entries(topicScores)]. *)
Definition declaredBefore (a b : Topic * nat) : Prop :=
  declIndex (fst a) < declIndex (fst b).

(** A text of fifty full stops: it passes the length check made before the
    analysis and has neither a token nor a sentence. *)
Definition fiftyStops : string :=
  "..................................................".

(** The characters of a token: small letters, digits and the underscore. *)
Definition isTokenChar (c : ascii) : bool :=
  isLower c || isDigit c || (code c =? 95)%N.

(** What [toLowerCase] and the blanking of punctuation make of one
    character of the text. *)
Definition cleanChar (c : ascii) : ascii :=
  if isWord (lowerChar c) || isSpace (lowerChar c) then lowerChar c else " "%char.

(** The number of occurrences of a character. *)
Fixpoint countChar (d : ascii) (s : string) : nat :=
  match s with
  | EmptyString => 0
  | String c rest => (if Ascii.eqb c d then 1 else 0) + countChar d rest
  end.

(** The value of [wordFreq] at a key that has been counted [n] times. *)
Definition countedValue (key : string) (n : nat) : Freq :=
  if String.eqb key "constructor" then Text else Count n.

(** The number of occurrences of a word among the tokens. *)
Definition occurrences (tokens : list string) (word : string) : nat :=
  count_occ string_dec tokens word.

(** A frequency that is a number. *)
Definition isCount (e : string * Freq) : Prop := exists n, snd e = Count n.

Definition countOf (e : string * Freq) : nat :=
  match snd e with
  | Count n => n
  | Text => 0
  end.

(** All the phrase templates of [generateSignaturePhrases]. *)
Definition allPhraseTemplates : list string :=
  phraseTemplates.high_energy ++ phraseTemplates.low_energy
  ++ phraseTemplates.formal ++ phraseTemplates.informal
  ++ phraseTemplates.positive_sentiment
  ++ phraseTemplates.creativity_topic ++ phraseTemplates.technology_topic.

(** A signature phrase is a template or a short sentence of the text,
    trimmed; it is not empty. *)
Definition isSignaturePhrase (originalText phrase : string) : Prop :=
  phrase <> "" /\
  (In phrase allPhraseTemplates \/
   exists sentence, In sentence (splitSentences originalText) /\
                    isShortSentence sentence = true /\ phrase = trim sentence).

(** The sentence built around a favorite word, and the last resort of
    [generateElaboration]. *)
Definition favoriteWordSentence (word : string) : string :=
  ("I think " ++ word ++ " is really important in this context.")%string.

Definition fallbackElaboration : string :=
  "It's all about perspective and finding what works best!".

(** The identifiers of the saved personas. *)
Definition savedIds (this : PersonaWriter) : list string :=
  map id (savedPersonas this).

(** A controller with a current persona and two saved ones, for the
    concrete instances. *)
Definition sampleWriter : PersonaWriter :=
  {| currentPersona := Some (mkSaved "k2" curiousPersona);
     savedPersonas := [mkSaved "k1" samplePersona; mkSaved "k2" samplePersona];
     chatHistory := [mkTurn bot "Hello!"; mkTurn user "Hi"] |}.

(** * Properties *)

(** ** Numbers *)

Lemma Qeq_bool_of_nat (n : nat) :
  Qeq_bool (inject_Z (Z.of_nat n)) 0 = (n =? 0).
Proof.
  destruct n as [|n]; [reflexivity|].
  unfold Qeq_bool. simpl. reflexivity.
Qed.

(** A zero count divided by a count: [NaN] for an empty total, else [0]. *)
Lemma div_zero_count (n : nat) :
  div (of_nat 0) (of_nat n) = if n =? 0 then NaN else Fin 0.
Proof.
  unfold div, of_nat. rewrite Qeq_bool_of_nat.
  destruct (n =? 0); reflexivity.
Qed.

(** ** Lists *)

Lemma filter_none {A : Type} (f : A -> bool) (l : list A) :
  (forall x, In x l -> f x = false) -> filter f l = [].
Proof.
  induction l as [|x l IH]; simpl; [reflexivity|].
  intros H. rewrite (H x (or_introl eq_refl)). apply IH. auto.
Qed.

Lemma filter_length_le {A : Type} (f : A -> bool) (l : list A) :
  List.length (filter f l) <= List.length l.
Proof.
  induction l as [|x l IH]; simpl; [lia|].
  destruct (f x); simpl; lia.
Qed.

Lemma In_firstn {A : Type} (n : nat) (x : A) (l : list A) :
  In x (firstn n l) -> In x l.
Proof.
  revert l. induction n as [|n IH]; intros [|y l]; simpl; try tauto.
  intros [H|H]; auto.
Qed.

Lemma filter_all {A : Type} (f : A -> bool) (l : list A) :
  (forall x, In x l -> f x = true) -> filter f l = l.
Proof.
  induction l as [|x l IH]; simpl; [reflexivity|].
  intros H. rewrite (H x (or_introl eq_refl)). f_equal. auto.
Qed.

Lemma fold_left_sum {A : Type} (f : A -> nat) (l : list A) (a : nat) :
  fold_left (fun acc x => acc + f x) l a = a + list_sum (map f l).
Proof.
  revert a. induction l as [|x l IH]; intros a; simpl; [lia|].
  rewrite IH. lia.
Qed.

(** ** Strings *)

Lemma append_empty_r (s : string) : (s ++ "")%string = s.
Proof. induction s; simpl; congruence. Qed.

Lemma append_assoc (s t u : string) : ((s ++ t) ++ u = s ++ (t ++ u))%string.
Proof. induction s; simpl; congruence. Qed.

Lemma allChars_app (P : ascii -> bool) (s t : string) :
  allChars P (s ++ t) = allChars P s && allChars P t.
Proof.
  induction s as [|c s IH]; simpl; [reflexivity|].
  rewrite IH. apply andb_assoc.
Qed.

Lemma removeChars_app (P : ascii -> bool) (s t : string) :
  removeChars P (s ++ t) = (removeChars P s ++ removeChars P t)%string.
Proof.
  induction s as [|c s IH]; simpl; [reflexivity|].
  destruct (P c); simpl; congruence.
Qed.

Lemma removeChars_all (P : ascii -> bool) (s : string) :
  allChars P s = true -> removeChars P s = "".
Proof.
  induction s as [|c s IH]; simpl; [reflexivity|].
  intros H. apply andb_prop in H as [Hc Hs]. rewrite Hc. auto.
Qed.

Lemma removeChars_removeChars (P R : ascii -> bool) (s : string) :
  removeChars P (removeChars R s) = removeChars (fun c => P c || R c) s.
Proof.
  induction s as [|c s IH]; simpl; [reflexivity|].
  destruct (R c); simpl.
  - rewrite orb_true_r. exact IH.
  - rewrite orb_false_r. destruct (P c); simpl; congruence.
Qed.

Lemma allChars_weaken (P R : ascii -> bool) (s : string) :
  (forall c, P c = true -> R c = true) ->
  allChars P s = true -> allChars R s = true.
Proof.
  intros HPR. induction s as [|c s IH]; simpl; [reflexivity|].
  intros H. apply andb_prop in H as [Hc Hs].
  rewrite (HPR _ Hc). simpl. auto.
Qed.

(** A string without the character [d] does not include the one-character
    string [d]. *)
Lemma includes_char_absent (d : ascii) (s : string) :
  allChars (notChar d) s = true -> includes s (String d "") = false.
Proof.
  induction s as [|c s IH]; simpl; [reflexivity|].
  intros H. apply andb_prop in H as [Hc Hs].
  rewrite (IH Hs), orb_false_r.
  destruct (ascii_dec d c) as [->|]; [|reflexivity].
  unfold notChar in Hc. rewrite Ascii.eqb_refl in Hc. discriminate.
Qed.

Lemma prefix_app (k s t : string) :
  prefix k s = true -> prefix k (s ++ t) = true.
Proof.
  revert s t. induction k as [|a k IH]; intros s t; [destruct s, t; reflexivity|].
  destruct s as [|b s]; simpl; [discriminate|].
  destruct (ascii_dec a b); [apply IH | discriminate].
Qed.

Lemma prefix_refl (s : string) : prefix s s = true.
Proof.
  induction s as [|a s IH]; simpl; [reflexivity|].
  destruct (ascii_dec a a); [exact IH | congruence].
Qed.

Lemma includes_app_l (s t k : string) :
  includes s k = true -> includes (s ++ t) k = true.
Proof.
  induction s as [|c s IH]; cbn [includes append].
  - rewrite orb_false_r. intros H.
    destruct k; [destruct t; reflexivity | discriminate].
  - intros H. apply orb_prop in H as [H|H].
    + apply (prefix_app _ _ t) in H. cbn [append] in H. rewrite H. reflexivity.
    + rewrite (IH H). apply orb_true_r.
Qed.

Lemma includes_app_r (s t k : string) :
  includes t k = true -> includes (s ++ t) k = true.
Proof.
  intros H. induction s as [|c s IH]; cbn [includes append]; [exact H|].
  rewrite IH. apply orb_true_r.
Qed.

Lemma includes_self (s : string) : includes s s = true.
Proof.
  destruct s; cbn [includes]; rewrite prefix_refl; reflexivity.
Qed.

Lemma arrayIncludes_In (l : list string) (x : string) :
  arrayIncludes l x = true <-> In x l.
Proof.
  unfold arrayIncludes. rewrite existsb_exists. split.
  - intros [y [Hy Heq]]. apply String.eqb_eq in Heq. congruence.
  - intros H. exists x. split; [exact H | apply String.eqb_refl].
Qed.

(** *** Trimming *)

Lemma trimEnd_empty (s : string) :
  trimEnd s = "" -> allChars isSpace s = true.
Proof.
  induction s as [|c s IH]; simpl; [reflexivity|].
  destruct (trimEnd s); [|discriminate].
  destruct (isSpace c); [auto | discriminate].
Qed.

Lemma trimStart_head (s : string) :
  match trimStart s with
  | EmptyString => allChars isSpace s = true
  | String c _ => isSpace c = false
  end.
Proof.
  induction s as [|c s IH]; simpl; [reflexivity|].
  destruct (isSpace c) eqn:Hc; simpl; [exact IH | exact Hc].
Qed.

(** A part is dropped by [splitSentences] exactly when it is made of
    white space only. *)
Lemma trim_empty (s : string) :
  String.length (trim s) = 0 -> allChars isSpace s = true.
Proof.
  unfold trim. intros H.
  assert (He : trimEnd (trimStart s) = "") by (destruct (trimEnd (trimStart s)); [reflexivity | discriminate]).
  apply trimEnd_empty in He.
  pose proof (trimStart_head s) as Hh.
  destruct (trimStart s) as [|c t]; [exact Hh|].
  simpl in He. rewrite Hh in He. discriminate.
Qed.

Lemma trim_not_blank (s : string) :
  allChars isSpace s = false -> 0 < String.length (trim s).
Proof.
  intros H. destruct (String.length (trim s)) eqn:E; [|lia].
  apply trim_empty in E. congruence.
Qed.

(** *** Splitting *)

Lemma concat_cons (x : string) (l : list string) :
  String.concat "" (x :: l) = (x ++ String.concat "" l)%string.
Proof.
  destruct l; simpl; [symmetry; apply append_empty_r | reflexivity].
Qed.

Section Split.
Variable delim : ascii -> bool.

Lemma splitRunsFrom_parts (s cur : string) (inrun : bool) :
  allChars (non delim) cur = true ->
  Forall (fun part => allChars (non delim) part = true)
         (splitRunsFrom delim s cur inrun).
Proof.
  revert cur inrun. induction s as [|c s IH]; intros cur inrun Hcur; simpl.
  - constructor; [exact Hcur | constructor].
  - destruct (delim c) eqn:Hc.
    + destruct inrun; [apply IH; reflexivity|].
      constructor; [exact Hcur | apply IH; reflexivity].
    + apply IH. rewrite allChars_app, Hcur. simpl.
      unfold non. rewrite Hc. reflexivity.
Qed.

(** Put end to end, the parts are the text without its delimiters. *)
Lemma splitRunsFrom_concat (s cur : string) (inrun : bool) :
  (inrun = true -> cur = "") ->
  String.concat "" (splitRunsFrom delim s cur inrun)
  = (cur ++ removeChars delim s)%string.
Proof.
  revert cur inrun. induction s as [|c s IH]; intros cur inrun Hrun.
  - simpl. symmetry. apply append_empty_r.
  - simpl. destruct (delim c) eqn:Hc.
    + destruct inrun.
      * rewrite (Hrun eq_refl). apply IH. reflexivity.
      * rewrite concat_cons. rewrite (IH "" true (fun _ => eq_refl)). reflexivity.
    + rewrite IH by discriminate. rewrite append_assoc. reflexivity.
Qed.

(** A text without delimiters is its own single part. *)
Lemma splitRunsFrom_whole (s cur : string) (inrun : bool) :
  allChars (non delim) s = true ->
  splitRunsFrom delim s cur inrun = [(cur ++ s)%string].
Proof.
  revert cur inrun. induction s as [|c s IH]; intros cur inrun H; simpl.
  - rewrite append_empty_r. reflexivity.
  - simpl in H. apply andb_prop in H as [Hc Hs].
    unfold non in Hc. destruct (delim c); [discriminate|].
    rewrite IH by exact Hs. rewrite append_assoc. reflexivity.
Qed.
End Split.

Lemma trimStart_blank (s : string) :
  allChars isSpace s = true -> trimStart s = "".
Proof.
  induction s as [|c s IH]; simpl; [reflexivity|].
  intros H. apply andb_prop in H as [Hc Hs]. rewrite Hc. auto.
Qed.

(** The test [s.trim().length > 0] of [splitSentences] holds exactly for the
    parts that have a character other than white space. *)
Lemma trim_test (s : string) :
  (0 <? String.length (trim s)) = negb (allChars isSpace s).
Proof.
  destruct (allChars isSpace s) eqn:E; simpl.
  - unfold trim. rewrite (trimStart_blank _ E). reflexivity.
  - apply Nat.ltb_lt. apply trim_not_blank. exact E.
Qed.

(** ** The sentence splitter *)

Lemma sentence_chars (text s : string) :
  In s (splitSentences text) ->
  allChars notTerminator s = true /\ allChars isSpace s = false.
Proof.
  unfold splitSentences. intros H. apply filter_In in H as [Hin Hkeep].
  split.
  - pose proof (splitRunsFrom_parts isTerminator text "" false eq_refl) as Hall.
    rewrite Forall_forall in Hall. exact (Hall _ Hin).
  - rewrite trim_test in Hkeep. destruct (allChars isSpace s); [discriminate | reflexivity].
Qed.

Lemma concat_keep_nonblank (parts : list string) :
  removeChars isSpace
    (String.concat "" (filter (fun s => 0 <? String.length (trim s)) parts))
  = removeChars isSpace (String.concat "" parts).
Proof.
  induction parts as [|p parts IH]; [reflexivity|].
  cbn [filter]. rewrite trim_test.
  destruct (allChars isSpace p) eqn:E; cbn [negb].
  - rewrite IH, concat_cons, removeChars_app, (removeChars_all _ _ E). reflexivity.
  - rewrite !concat_cons, !removeChars_app, IH. reflexivity.
Qed.

(** *** Where the text is cut *)

(** Reading a part without terminators adds it to the part being read. *)
Lemma splitRunsFrom_part (p s cur : string) (inrun : bool) :
  allChars notTerminator p = true -> (inrun = true -> cur = "") ->
  exists inrun',
    (inrun' = true -> (cur ++ p)%string = "") /\
    splitRunsFrom isTerminator (p ++ s) cur inrun
    = splitRunsFrom isTerminator s (cur ++ p) inrun'.
Proof.
  revert cur inrun. induction p as [|c p IH]; intros cur inrun Hp Hrun.
  - exists inrun. rewrite append_empty_r. split; [exact Hrun | reflexivity].
  - cbn [allChars] in Hp. apply andb_prop in Hp as [Hc Hp].
    unfold notTerminator, non in Hc.
    destruct (IH (cur ++ String c "")%string false Hp) as [inrun' [H1 H2]];
      [discriminate|].
    exists inrun'. rewrite append_assoc in H1, H2. cbn [append] in H1, H2.
    split; [exact H1|]. cbn [append splitRunsFrom].
    destruct (isTerminator c); [discriminate Hc | exact H2].
Qed.

(** Reading terminators closes the part being read, whatever their number. *)
Lemma splitRunsFrom_run (r s cur : string) (inrun : bool) :
  isSeparator r = true -> (inrun = true -> cur = "") ->
  filter notBlank (splitRunsFrom isTerminator (r ++ s) cur inrun)
  = filter notBlank (cur :: splitRunsFrom isTerminator s "" true).
Proof.
  unfold isSeparator. revert cur inrun.
  induction r as [|c r IH]; intros cur inrun Hr Hrun; [discriminate Hr|].
  cbn [String.length Nat.ltb Nat.leb andb allChars] in Hr.
  apply andb_prop in Hr as [Hc Hr]. cbn [append splitRunsFrom]. rewrite Hc.
  assert (Hnext : filter notBlank (splitRunsFrom isTerminator (r ++ s) "" true)
                  = filter notBlank (splitRunsFrom isTerminator s "" true)).
  { destruct r as [|c' r']; [reflexivity|].
    rewrite (IH "" true); [reflexivity | | reflexivity].
    cbn [String.length Nat.ltb Nat.leb andb]. exact Hr. }
  destruct inrun.
  - rewrite (Hrun eq_refl). exact Hnext.
  - cbn [filter]. rewrite Hnext. reflexivity.
Qed.

Lemma splitRunsFrom_joinParts (rest : list (string * string)) :
  forall (first cur : string) (inrun : bool),
    (inrun = true -> cur = "") -> separated first rest = true ->
    filter notBlank (splitRunsFrom isTerminator (joinParts first rest) cur inrun)
    = filter notBlank ((cur ++ first)%string :: map snd rest).
Proof.
  unfold separated.
  induction rest as [|[run part] rest IH]; intros first cur inrun Hrun Hsep;
    apply andb_prop in Hsep as [Hfirst Hrest].
  - cbn [joinParts map].
    rewrite (splitRunsFrom_whole isTerminator first cur inrun Hfirst). reflexivity.
  - cbn [forallb fst snd] in Hrest.
    apply andb_prop in Hrest as [Hpair Hrest]. apply andb_prop in Hpair as [Hsepr Hpart].
    cbn [joinParts map snd].
    destruct (splitRunsFrom_part first (run ++ joinParts part rest) cur inrun Hfirst Hrun)
      as [inrun' [Hrun' ->]].
    rewrite (splitRunsFrom_run run _ _ inrun' Hsepr Hrun').
    cbn [filter]. rewrite (IH part "" true (fun _ => eq_refl)).
    + reflexivity.
    + rewrite Hpart, Hrest. reflexivity.
Qed.

(** Every text can be written as parts separated by terminators. *)
Lemma joinParts_exists (text : string) :
  exists first rest, text = joinParts first rest /\ separated first rest = true.
Proof.
  induction text as [|c text (first & rest & Htext & Hsep)].
  - exists "", []. split; reflexivity.
  - destruct (isTerminator c) eqn:Hc.
    + exists "", ((String c "", first) :: rest). split.
      * cbn [joinParts append]. rewrite Htext. reflexivity.
      * unfold separated in *. apply andb_prop in Hsep as [Hfirst Hrest].
        cbn [allChars forallb fst snd andb]. rewrite Hfirst, Hrest.
        unfold isSeparator. cbn [String.length Nat.ltb Nat.leb allChars andb].
        rewrite Hc. reflexivity.
    + exists (String c first), rest. split.
      * rewrite Htext. destruct rest as [|[run part] rest]; reflexivity.
      * unfold separated in *. cbn [allChars].
        unfold notTerminator at 1. unfold non. rewrite Hc. exact Hsep.
Qed.

(** C6, the claim as the specification words it, fails twice: a returned
    sentence keeps its leading white space, and a text that is not empty
    and has no terminal punctuation can yield no sentence at all. *)
Lemma splitSentences_counterexample :
  splitSentences "a. b" = ["a"; " b"] /\
  ~ (forall s, In s (splitSentences "a. b") -> trim s = s) /\
  splitSentences " " = [] /\
  ~ (" " <> "" -> allChars notTerminator " " = true -> splitSentences " " <> []).
Proof.
  split; [reflexivity|]. split; [|split; [reflexivity|]].
  - intros H. specialize (H " b" (or_intror (or_introl eq_refl))). discriminate H.
  - intros H. apply H; [discriminate | reflexivity | reflexivity].
Qed.

(** C6, amended: [splitSentences] splits the text on the runs of '.', '!'
    and '?' and keeps, untrimmed, the parts that hold a character other than
    white space.  Every text is a sequence of parts without terminators,
    separated by terminators; however it is written so, its sentences are
    the parts that are not blank, in their order and as they stand in the
    text.  Hence no returned sentence holds a terminator or is blank, put
    end to end the sentences are the text without its terminators up to
    white space, the empty string yields no sentence, and a text without
    terminators that is not blank yields exactly one sentence, itself. *)
Theorem splitSentences_spec (text : string) :
  splitSentences "" = [] /\
  (exists first rest, text = joinParts first rest /\ separated first rest = true) /\
  (forall first rest,
     text = joinParts first rest -> separated first rest = true ->
     splitSentences text = filter notBlank (first :: map snd rest)) /\
  (forall s, In s (splitSentences text) ->
             allChars notTerminator s = true /\ allChars isSpace s = false) /\
  removeChars isSpace (String.concat "" (splitSentences text))
  = removeChars (fun c => isSpace c || isTerminator c) text /\
  (allChars notTerminator text = true -> allChars isSpace text = false ->
   splitSentences text = [text]).
Proof.
  split; [reflexivity|]. split; [apply joinParts_exists|].
  split; [|split; [apply sentence_chars|split]].
  - intros first rest -> Hsep. unfold splitSentences, splitRuns.
    rewrite (filter_ext _ notBlank) by (intros s; apply trim_test).
    exact (splitRunsFrom_joinParts rest first "" false (fun H => eq_refl) Hsep).
  - unfold splitSentences. rewrite concat_keep_nonblank.
    unfold splitRuns. rewrite splitRunsFrom_concat by discriminate.
    cbn [append]. apply removeChars_removeChars.
  - intros Hterm Hblank. unfold splitSentences, splitRuns.
    rewrite (splitRunsFrom_whole isTerminator text "" false Hterm).
    cbn [append filter]. rewrite trim_test, Hblank. reflexivity.
Qed.

Lemma splitSentences_spec_witness :
  splitSentences "Are you sure?! Yes... I am."
  = ["Are you sure"; " Yes"; " I am"].
Proof.
  destruct (splitSentences_spec "Are you sure?! Yes... I am.") as (_ & _ & H & _).
  exact (H "Are you sure" [("?!", " Yes"); ("...", " I am"); (".", "")]
           eq_refl eq_refl).
Defined.

(** ** Questions and exclamations *)

Lemma sentences_lack (d : ascii) (text : string) :
  isTerminator d = true ->
  filter (fun s => includes s (String d "")) (splitSentences text) = [].
Proof.
  intros Hd. apply filter_none. intros s Hs.
  apply includes_char_absent. apply sentence_chars in Hs as [Hs _].
  revert Hs. apply allChars_weaken. intros c Hc. unfold notChar, notTerminator, non in *.
  destruct (Ascii.eqb_spec c d) as [->|]; [|reflexivity].
  rewrite Hd in Hc. discriminate.
Qed.

Lemma analyzeQuestions_sentences (text : string) :
  analyzeQuestions (splitSentences text)
  = if List.length (splitSentences text) =? 0 then NaN else Fin 0.
Proof.
  unfold analyzeQuestions. rewrite (sentences_lack "?" text eq_refl).
  apply div_zero_count.
Qed.

Lemma analyzeExclamations_sentences (text : string) :
  analyzeExclamations (splitSentences text)
  = if List.length (splitSentences text) =? 0 then NaN else Fin 0.
Proof.
  unfold analyzeExclamations. rewrite (sentences_lack "!" text eq_refl).
  apply div_zero_count.
Qed.

(** *** The traits as a chain of conditional pushes *)

Lemma mapTraits_unfold (analysis : Analysis) :
  mapTraits analysis
  = firstn 5 (conditionalTraits analysis [formalityTrait analysis; energyTrait analysis]).
Proof.
  unfold mapTraits, conditionalTraits, formalityTrait, energyTrait, sentimentTrait.
  generalize (gt (formality analysis) (Fin (7 # 10))),
             (lt (formality analysis) (Fin (3 # 10))),
             (gt (energy analysis) (Fin (7 # 10))),
             (lt (energy analysis) (Fin (3 # 10))).
  intros [] [] [] []; reflexivity.
Qed.

Lemma In_pushIf (b : bool) (l : list string) (y x : string) :
  In x (pushIf b y l) -> In x l \/ (b = true /\ x = y).
Proof.
  unfold pushIf. destruct b; [|auto].
  intros H. apply in_app_or in H as [H|[H|[]]]; auto.
Qed.

Lemma pushIf_extends (b : bool) (base l : list string) (y : string) :
  (exists more, l = base ++ more) ->
  exists more, pushIf b y l = base ++ more.
Proof.
  intros [more ->]. unfold pushIf. destruct b; [|eauto].
  exists (more ++ [y]). symmetry. apply app_assoc.
Qed.

Lemma mapTraits_quiet (analysis : Analysis) :
  gt (questionRatio analysis) (Fin (3 # 10)) = false ->
  gt (exclamationRatio analysis) (Fin (3 # 10)) = false ->
  ~ In "Curious" (mapTraits analysis) /\ ~ In "Expressive" (mapTraits analysis).
Proof.
  intros Hq He. rewrite mapTraits_unfold. unfold conditionalTraits.
  split; intros H; apply In_firstn in H;
    repeat (apply In_pushIf in H as [H|[Hb H]]; [|congruence || revert H]);
    unfold sentimentTrait, formalityTrait, energyTrait in *;
    try (destruct (polarity (sentiment analysis)); discriminate);
    revert H;
    destruct (gt (formality analysis) (Fin (7 # 10))),
             (lt (formality analysis) (Fin (3 # 10))),
             (gt (energy analysis) (Fin (7 # 10))),
             (lt (energy analysis) (Fin (3 # 10)));
    simpl; intuition discriminate.
Qed.

(** C2: when the sentence sequence of a text is not empty, [analyzeQuestions]
    and [analyzeExclamations] return exactly 0 on it, because no sentence
    returned by [splitSentences] holds a '?' or a '!'; hence [mapTraits]
    never adds 'Curious' or 'Expressive' to the traits computed from the
    analysis of a text. *)
Theorem no_curious_no_expressive (text : string) :
  (splitSentences text <> [] ->
   analyzeQuestions (splitSentences text) = Fin 0 /\
   analyzeExclamations (splitSentences text) = Fin 0) /\
  (forall s, In s (splitSentences text) ->
             includes s "?" = false /\ includes s "!" = false) /\
  ~ In "Curious" (mapTraits (analyzeText text)) /\
  ~ In "Expressive" (mapTraits (analyzeText text)).
Proof.
  split; [|split].
  - intros Hne. rewrite analyzeQuestions_sentences, analyzeExclamations_sentences.
    destruct (splitSentences text); [congruence | split; reflexivity].
  - intros s Hs. apply sentence_chars in Hs as [Hs _].
    split; apply includes_char_absent; revert Hs; apply allChars_weaken;
      intros c Hc; unfold notChar, notTerminator, non, isTerminator in *;
      destruct (Ascii.eqb c "?"), (Ascii.eqb c "!"), (Ascii.eqb c ".");
      simpl in *; congruence.
  - apply mapTraits_quiet; cbn [analyzeText questionRatio exclamationRatio].
    + rewrite analyzeQuestions_sentences.
      destruct (List.length (splitSentences text) =? 0); reflexivity.
    + rewrite analyzeExclamations_sentences.
      destruct (List.length (splitSentences text) =? 0); reflexivity.
Qed.

Lemma no_curious_no_expressive_witness :
  analyzeQuestions (splitSentences "Are you sure? Yes! I am.") = Fin 0 /\
  analyzeExclamations (splitSentences "Are you sure? Yes! I am.") = Fin 0.
Proof.
  apply (no_curious_no_expressive "Are you sure? Yes! I am."). discriminate.
Defined.

(** ** Traits *)

Lemma firstn_5_shape (l : list string) (x y : string) :
  (exists more, l = [x; y] ++ more) ->
  exists more, firstn 5 l = x :: y :: firstn 3 more /\
               2 <= List.length (firstn 5 l) <= 5.
Proof.
  intros [more ->]. exists more.
  change (firstn 5 ([x; y] ++ more)) with (x :: y :: firstn 3 more).
  cbn [List.length].
  pose proof (firstn_le_length 3 more). split; [reflexivity | lia].
Qed.

(** C10: the traits list is the first 5 entries of the list of the pushes:
    the formality trait, then the energy trait, both pushed whatever the
    analysis, then the conditional traits in the order of their tests.  So
    it starts with a formality trait ('Professional', 'Casual' or
    'Balanced') followed by an energy trait ('Energetic', 'Calm' or
    'Moderate'), at most 3 of the conditional traits follow, and it has at
    least 2 and at most 5 entries: all the pushes when they are at most 5,
    exactly 5 otherwise. *)
Theorem mapTraits_shape (analysis : Analysis) :
  let pushed :=
    conditionalTraits analysis [formalityTrait analysis; energyTrait analysis] in
  mapTraits analysis = firstn 5 pushed /\
  (exists more,
     pushed = formalityTrait analysis :: energyTrait analysis :: more /\
     mapTraits analysis
     = formalityTrait analysis :: energyTrait analysis :: firstn 3 more) /\
  In (formalityTrait analysis) formalityTraits /\
  In (energyTrait analysis) energyTraits /\
  2 <= List.length (mapTraits analysis) <= 5 /\
  List.length (mapTraits analysis) = Nat.min 5 (List.length pushed).
Proof.
  cbv zeta. rewrite mapTraits_unfold.
  assert (Hpushed : exists more,
            conditionalTraits analysis [formalityTrait analysis; energyTrait analysis]
            = [formalityTrait analysis; energyTrait analysis] ++ more).
  { unfold conditionalTraits. do 7 apply pushIf_extends. exists []. reflexivity. }
  destruct (firstn_5_shape _ _ _ Hpushed) as [more' [_ Hlen]].
  destruct Hpushed as [more Hmore].
  split; [reflexivity|]. split; [|split; [|split; [|split; [exact Hlen|]]]].
  - exists more. split; [exact Hmore|]. rewrite Hmore. reflexivity.
  - unfold formalityTrait.
    destruct (gt (formality analysis) (Fin (7 # 10))),
             (lt (formality analysis) (Fin (3 # 10))); simpl; tauto.
  - unfold energyTrait.
    destruct (gt (energy analysis) (Fin (7 # 10))),
             (lt (energy analysis) (Fin (3 # 10))); simpl; tauto.
  - apply length_firstn.
Qed.

(** ** Taglines *)

(** C3: [generateTagline] always returns the default tagline: the key it
    builds from a topic label (or 'default') and an energy level is not a
    key of the tagline table. *)
Theorem generateTagline_default (analysis : Analysis) :
  lookup (taglineKey analysis) taglines = None /\
  generateTagline analysis = defaultTagline.
Proof.
  unfold generateTagline, taglineKey.
  destruct (topics analysis) as [|[] rest];
    destruct (gt (energy analysis) (Fin (6 # 10))); split; reflexivity.
Qed.

(** ** Sentiment *)

Lemma sentiment_scores (tokens : list string) (p n : nat) :
  fold_left sentimentStep tokens (p, n)
  = (p + positiveCount tokens, n + negativeCount tokens).
Proof.
  revert p n. induction tokens as [|t tokens IH]; intros p n.
  - cbv [positiveCount negativeCount lexiconCount filter List.length fold_left].
    f_equal; lia.
  - cbn [fold_left]. unfold sentimentStep at 2. rewrite IH.
    unfold positiveCount, negativeCount, lexiconCount. cbn [filter].
    destruct (arrayIncludes positiveWords t), (arrayIncludes negativeWords t);
      cbn [List.length]; f_equal; lia.
Qed.

Lemma lexiconCount_zero (lexicon tokens : list string) :
  (forall t, In t tokens -> ~ In t lexicon) -> lexiconCount lexicon tokens = 0.
Proof.
  intros H. unfold lexiconCount. rewrite filter_none; [reflexivity|].
  intros t Ht. destruct (arrayIncludes lexicon t) eqn:E; [|reflexivity].
  apply arrayIncludes_In in E. destruct (H t Ht E).
Qed.

Lemma lexiconCount_pos (lexicon tokens : list string) (t : string) :
  In t tokens -> In t lexicon -> 0 < lexiconCount lexicon tokens.
Proof.
  intros Ht Hl. unfold lexiconCount.
  assert (Hin : In t (filter (arrayIncludes lexicon) tokens)).
  { apply filter_In. split; [exact Ht | apply arrayIncludes_In; exact Hl]. }
  destruct (filter (arrayIncludes lexicon) tokens); [destruct Hin | simpl; lia].
Qed.

Lemma lexiconCount_le (lexicon tokens : list string) :
  lexiconCount lexicon tokens <= List.length tokens.
Proof. apply filter_length_le. Qed.

(** [Math.min(x, 1)] and [Math.min(1, x)] agree on a number in lowest terms. *)
Lemma min_one_comm (q : Q) :
  Num.min (Fin (Qred q)) (of_nat 1) = Num.min (of_nat 1) (Fin (Qred q)).
Proof.
  change (of_nat 1) with (Fin 1). unfold Num.min, lt, gt, Qlt_bool.
  destruct (Qle_bool (Qred q) 1) eqn:Hle, (Qle_bool 1 (Qred q)) eqn:Hge;
    cbn [negb]; try reflexivity.
  - apply Qle_bool_iff in Hle, Hge.
    f_equal. rewrite <- (Qred_complete _ _ (Qred_correct q)).
    change 1%Q with (Qred 1). apply Qred_complete. apply Qle_antisym; assumption.
  - exfalso. destruct (Qlt_le_dec 1 (Qred q)) as [H|H].
    + apply Qlt_le_weak in H. apply Qle_bool_iff in H. congruence.
    + apply Qle_bool_iff in H. congruence.
Qed.

Lemma mul_div_counts (a n : nat) :
  n <> 0 ->
  exists q, mul (div (of_nat a) (of_nat n)) (of_nat 10) = Fin (Qred q).
Proof.
  intros Hn. unfold div, of_nat. rewrite Qeq_bool_of_nat.
  destruct (Nat.eqb_spec n 0) as [|_]; [contradiction|].
  cbn [mul]. eauto.
Qed.

(** C4: with no token in the positive or negative lexicon the sentiment is
    neutral with strength exactly 0.3; otherwise the strength is
    min(1, (positiveCount + negativeCount) / tokenCount * 10) and the
    polarity is positive, negative or neutral as positiveCount is greater
    than, less than or equal to negativeCount. *)
Theorem analyzeSentiment_spec (tokens : list string) :
  ((forall t, In t tokens -> ~ In t positiveWords /\ ~ In t negativeWords) ->
   analyzeSentiment tokens = mkSentiment neutral (Fin (3 # 10))) /\
  ((exists t, In t tokens /\ (In t positiveWords \/ In t negativeWords)) ->
   strength (analyzeSentiment tokens)
   = Num.min (of_nat 1)
       (mul (div (of_nat (positiveCount tokens + negativeCount tokens))
                 (of_nat (List.length tokens)))
            (of_nat 10)) /\
   polarity (analyzeSentiment tokens)
   = if negativeCount tokens <? positiveCount tokens then positive
     else if positiveCount tokens <? negativeCount tokens then negative
     else neutral).
Proof.
  unfold analyzeSentiment. rewrite sentiment_scores. cbn [Nat.add].
  split.
  - intros Hnone. unfold positiveCount, negativeCount.
    rewrite !lexiconCount_zero; [reflexivity | |]; intros t Ht; apply (Hnone t Ht).
  - intros [t [Ht Hlex]].
    assert (Hpos : 0 < positiveCount tokens + negativeCount tokens).
    { destruct Hlex as [H|H].
      - pose proof (lexiconCount_pos positiveWords tokens t Ht H).
        unfold positiveCount. lia.
      - pose proof (lexiconCount_pos negativeWords tokens t Ht H).
        unfold negativeCount. lia. }
    assert (Hlen : List.length tokens <> 0) by (destruct tokens; [destruct Ht | discriminate]).
    destruct (Nat.eqb_spec (positiveCount tokens + negativeCount tokens) 0) as [E|_]; [lia|].
    destruct (mul_div_counts (positiveCount tokens + negativeCount tokens) _ Hlen) as [q Hq].
    rewrite Hq, min_one_comm.
    destruct (Z.gtb_spec (Z.of_nat (positiveCount tokens) - Z.of_nat (negativeCount tokens)) 0);
      [|destruct (Z.ltb_spec (Z.of_nat (positiveCount tokens) - Z.of_nat (negativeCount tokens)) 0)];
      cbn [strength polarity]; (split; [reflexivity|]);
      destruct (Nat.ltb_spec (negativeCount tokens) (positiveCount tokens));
      try destruct (Nat.ltb_spec (positiveCount tokens) (negativeCount tokens));
      try reflexivity; lia.
Qed.

Lemma analyzeSentiment_spec_witness :
  analyzeSentiment ["the"; "cat"; "sat"] = mkSentiment neutral (Fin (3 # 10)) /\
  strength (analyzeSentiment ["i"; "love"; "this"; "awful"; "great"; "mat"]) = Fin 1 /\
  polarity (analyzeSentiment ["i"; "love"; "this"; "awful"; "great"; "mat"]) = positive.
Proof.
  split.
  - apply (analyzeSentiment_spec ["the"; "cat"; "sat"]).
    intros t Ht. simpl in Ht.
    destruct Ht as [<-|[<-|[<-|[]]]]; split; intros H; simpl in H;
      repeat (destruct H as [H|H]; [discriminate H|]); exact H.
  - apply (analyzeSentiment_spec ["i"; "love"; "this"; "awful"; "great"; "mat"]).
    exists "love". split; [simpl; tauto | left; simpl; tauto].
Defined.

(** ** Random choices *)

Lemma draw_bounds (r : draw) : (0 <= value r)%Q /\ (value r < 1)%Q.
Proof.
  pose proof (value_range r) as H. apply andb_prop in H as [H0 H1].
  split; [apply Qle_bool_iff; exact H0|].
  unfold Qlt_bool in H1. apply Qnot_le_lt. intros Hle.
  apply Qle_bool_iff in Hle. rewrite Hle in H1. discriminate.
Qed.

(** [Math.floor(Math.random() * n)] is an index of an array of length [n]. *)
Lemma randomIndex_lt (r : draw) (n : nat) : 0 < n -> randomIndex r n < n.
Proof.
  intros Hn. unfold randomIndex.
  destruct (draw_bounds r) as [H0 H1].
  set (x := (value r * inject_Z (Z.of_nat n))%Q).
  assert (Hn' : (0 < inject_Z (Z.of_nat n))%Q).
  { change (inject_Z 0 < inject_Z (Z.of_nat n))%Q. rewrite <- Zlt_Qlt. lia. }
  assert (Hx0 : (0 <= x)%Q).
  { unfold x. apply Qmult_le_0_compat; [exact H0 | apply Qlt_le_weak; exact Hn']. }
  assert (Hx1 : (x < inject_Z (Z.of_nat n))%Q).
  { unfold x. rewrite <- (Qmult_1_l (inject_Z (Z.of_nat n))) at 2.
    apply Qmult_lt_compat_r; assumption. }
  assert (Hf0 : (0 <= Qfloor x)%Z).
  { change 0%Z with (Qfloor 0). apply Qfloor_resp_le. exact Hx0. }
  assert (Hf1 : (Qfloor x < Z.of_nat n)%Z).
  { rewrite Zlt_Qlt. apply Qle_lt_trans with x; [apply Qfloor_le | exact Hx1]. }
  lia.
Qed.

Lemma randomChoice_In (array : list string) (s : source) :
  array <> [] -> In (fst (randomChoice array s)) array.
Proof.
  intros Hne. unfold randomChoice, bind, random, ret. cbn [fst].
  apply nth_In. apply randomIndex_lt.
  destruct array; [congruence | simpl; lia].
Qed.

Lemma bind_run {A B : Type} (m : Rand A) (k : A -> Rand B) (s : source) :
  bind m k s = k (fst (m s)) (snd (m s)).
Proof. unfold bind. destruct (m s). reflexivity. Qed.

(** ** Persona names *)

Lemma topicsInclude_In (l : list Topic) (t : Topic) :
  topicsInclude l t = true <-> In t l.
Proof.
  unfold topicsInclude. rewrite existsb_exists. split.
  - intros [u [Hu E]]. destruct t, u; try discriminate E; exact Hu.
  - intros H. exists t. split; [exact H | destruct t; reflexivity].
Qed.

(** C7: the persona name is a prefix followed at once by a suffix.  The
    prefix comes from the high-energy bucket when energy > 0.7, else from
    the low-energy bucket when energy < 0.3, else from the creative bucket
    when the topics include creativity, else from the professional bucket
    when formality > 0.7, else from the friendly bucket.  The suffix comes
    from the suffix list of the first topic when it has one, and is 'Mind'
    otherwise. *)
Theorem generatePersonaName_spec (analysis : Analysis) (s : source) :
  exists prefix suffix,
    fst (generatePersonaName analysis s) = (prefix ++ suffix)%string /\
    (gt (energy analysis) (Fin (7 # 10)) = true ->
     In prefix nameComponents.prefixes.high_energy) /\
    (gt (energy analysis) (Fin (7 # 10)) = false ->
     lt (energy analysis) (Fin (3 # 10)) = true ->
     In prefix nameComponents.prefixes.low_energy) /\
    (gt (energy analysis) (Fin (7 # 10)) = false ->
     lt (energy analysis) (Fin (3 # 10)) = false ->
     In creativity (topics analysis) ->
     In prefix nameComponents.prefixes.creative) /\
    (gt (energy analysis) (Fin (7 # 10)) = false ->
     lt (energy analysis) (Fin (3 # 10)) = false ->
     ~ In creativity (topics analysis) ->
     gt (formality analysis) (Fin (7 # 10)) = true ->
     In prefix nameComponents.prefixes.professional) /\
    (gt (energy analysis) (Fin (7 # 10)) = false ->
     lt (energy analysis) (Fin (3 # 10)) = false ->
     ~ In creativity (topics analysis) ->
     gt (formality analysis) (Fin (7 # 10)) = false ->
     In prefix nameComponents.prefixes.friendly) /\
    (forall primaryTopic list,
       hd_error (topics analysis) = Some primaryTopic ->
       lookup (topicName primaryTopic) nameComponents.suffixes = Some list ->
       In suffix list) /\
    (forall primaryTopic,
       hd_error (topics analysis) = Some primaryTopic ->
       lookup (topicName primaryTopic) nameComponents.suffixes = None ->
       suffix = "Mind") /\
    (topics analysis = [] -> suffix = "Mind").
Proof.
  unfold generatePersonaName.
  set (pick := if gt (energy analysis) (Fin (7 # 10)) then _ else _).
  set (tail := match hd_error (topics analysis) with Some _ => _ | None => _ end).
  exists (fst (pick s)), (fst (tail (snd (pick s)))).
  split.
  { rewrite bind_run. rewrite bind_run. reflexivity. }
  assert (Hbucket : forall bucket, bucket <> [] -> In (fst (randomChoice bucket s)) bucket)
    by (intros; apply randomChoice_In; assumption).
  unfold pick.
  repeat split.
  - intros ->. apply Hbucket. discriminate.
  - intros -> ->. apply Hbucket. discriminate.
  - intros -> -> Hc. apply topicsInclude_In in Hc. rewrite Hc. apply Hbucket. discriminate.
  - intros -> -> Hc ->.
    destruct (topicsInclude (topics analysis) creativity) eqn:E;
      [apply topicsInclude_In in E; contradiction|].
    apply Hbucket. discriminate.
  - intros -> -> Hc ->.
    destruct (topicsInclude (topics analysis) creativity) eqn:E;
      [apply topicsInclude_In in E; contradiction|].
    apply Hbucket. discriminate.
  - intros primaryTopic list Hhd Hlist. unfold tail. rewrite Hhd, Hlist.
    apply randomChoice_In. destruct primaryTopic; simpl in Hlist; inversion Hlist; discriminate.
  - intros primaryTopic Hhd Hnone. unfold tail. rewrite Hhd, Hnone. reflexivity.
  - intros Hnil. unfold tail. rewrite Hnil. reflexivity.
Qed.

Lemma generatePersonaName_spec_witness :
  exists prefix suffix,
    fst (generatePersonaName sampleAnalysis sampleSource) = (prefix ++ suffix)%string /\
    In prefix nameComponents.prefixes.high_energy /\
    In suffix ["Tech"; "Bot"; "Byte"; "Code"; "Data"; "Sync"].
Proof.
  destruct (generatePersonaName_spec sampleAnalysis sampleSource)
    as (prefix & suffix & E & Hhigh & _ & _ & _ & _ & Hsuffix & _).
  exists prefix, suffix. split; [exact E|]. split.
  - apply Hhigh. reflexivity.
  - apply (Hsuffix technology); reflexivity.
Defined.

(** ** Styling a reply *)

(** After the formality step [applyPersonaStyle] only appends. *)
Lemma applyPersonaStyle_appends (response : string) (persona : Persona) (s : source) :
  exists tail,
    fst (applyPersonaStyle response persona s)
    = (formalityStyled persona response ++ tail)%string /\
    (gt (Style.energy (communicationStyle persona)) (Fin (7 # 10)) = true ->
     includes (formalityStyled persona response) "!" = false ->
     prefix "!" tail = true).
Proof.
  unfold applyPersonaStyle. fold (formalityStyled persona response).
  set (styled := formalityStyled persona response).
  set (energetic :=
         if gt (Style.energy (communicationStyle persona)) (Fin (7 # 10))
         then if negb (includes styled "!") then (styled ++ "!")%string else styled
         else styled).
  assert (He : exists t0, energetic = (styled ++ t0)%string /\
                          (gt (Style.energy (communicationStyle persona)) (Fin (7 # 10)) = true ->
                           includes styled "!" = false -> t0 = "!")).
  { unfold energetic.
    destruct (gt (Style.energy (communicationStyle persona)) (Fin (7 # 10))).
    - destruct (includes styled "!"); cbn [negb].
      + exists "". split; [symmetry; apply append_empty_r | discriminate].
      + exists "!". split; reflexivity.
    - exists "". split; [symmetry; apply append_empty_r | discriminate]. }
  destruct He as [t0 [E0 Hbang]]. rewrite E0.
  rewrite !bind_run. cbn [random fst snd].
  set (phrased := if _ && (0 <? List.length (signaturePhrases persona)) then _ else _).
  assert (Hp : exists t1, fst (phrased (fun n => s (S n))) = (styled ++ t0 ++ t1)%string).
  { unfold phrased. destruct (_ && _).
    - rewrite bind_run. cbn [ret fst]. rewrite append_assoc. eauto.
    - cbn [ret fst]. exists "". rewrite append_empty_r. reflexivity. }
  destruct Hp as [t1 E1]. rewrite E1.
  match goal with
  | |- context [if ?c then _ else _] => destruct c
  end.
  - rewrite bind_run. cbn [ret fst]. rewrite !append_assoc.
    eexists. split; [reflexivity|].
    intros Hg Hi. rewrite (Hbang Hg Hi). apply prefix_app. reflexivity.
  - cbn [ret fst]. eexists. split; [reflexivity|].
    intros Hg Hi. rewrite (Hbang Hg Hi). apply prefix_app. reflexivity.
Qed.

Lemma generateResponse_run (persona : Persona) (userMessage : string) (s : source) :
  let userTokens := tokenize (toLowerCase userMessage) in
  let draft :=
    if includes userMessage "?"
    then generateAnswerResponse userMessage userTokens persona
    else generateReactiveResponse userMessage userTokens
           (analyzeSentiment userTokens) persona in
  generateResponse persona userMessage s
  = applyPersonaStyle (fst (draft s)) persona (snd (draft s)).
Proof.
  unfold generateResponse. cbv zeta.
  exact (bind_run _ (fun response => applyPersonaStyle response persona) s).
Qed.

(** C8: when the persona's energy is greater than 0.7 the reply holds at
    least one '!', whatever the utterance and the random choices: the
    stylizer appends one to a reply that lacks it, and whatever follows is
    appended after it. *)
Theorem energetic_reply_exclaims (persona : Persona) (userMessage : string) (s : source) :
  gt (Style.energy (communicationStyle persona)) (Fin (7 # 10)) = true ->
  includes (fst (generateResponse persona userMessage s)) "!" = true.
Proof.
  intros Henergy. rewrite generateResponse_run. cbv zeta.
  match goal with
  | |- context [applyPersonaStyle ?r persona ?s'] =>
      destruct (applyPersonaStyle_appends r persona s') as [tail [E Hbang]];
      rewrite E;
      destruct (includes (formalityStyled persona r) "!") eqn:Hi
  end.
  - apply includes_app_l. exact Hi.
  - apply includes_app_r. specialize (Hbang Henergy eq_refl).
    destruct tail as [|c tail]; [discriminate|].
    cbn [includes]. rewrite Hbang. reflexivity.
Qed.

Lemma energetic_reply_exclaims_witness :
  includes (fst (generateResponse samplePersona "how do you build software?" sampleSource))
           "!" = true.
Proof.
  apply (energetic_reply_exclaims samplePersona "how do you build software?" sampleSource).
  reflexivity.
Defined.

(** ** Follow-up lines *)

Lemma followUps_not_reflective (line : string) :
  In line followUps -> ~ In line reflectiveFollowUps.
Proof.
  unfold followUps, reflectiveFollowUps. simpl.
  intros H R.
  repeat (destruct H as [H|H]; [subst line; intuition discriminate|]).
  exact H.
Qed.

Lemma followUps_survive (rewrite : string -> string) (p : Polarity)
  (reaction followUp : string) :
  followUpsSurvive rewrite = true ->
  In reaction (reactionTemplates p) -> In followUp followUps ->
  includes (rewrite (reaction ++ " " ++ followUp)%string) followUp = true.
Proof.
  unfold followUpsSurvive. intros H Hr Hf.
  rewrite forallb_forall in H. specialize (H reaction).
  rewrite forallb_forall in H. apply H; [|exact Hf].
  destruct p; repeat (apply in_or_app; (left; exact Hr) || right); exact Hr.
Qed.

Lemma makeFormal_survive : followUpsSurvive makeFormal = true.
Proof. vm_compute. reflexivity. Qed.

Lemma makeInformal_survive : followUpsSurvive makeInformal = true.
Proof. vm_compute. reflexivity. Qed.

(** C9: for a persona whose traits contain 'Curious' and an utterance
    without '?', the follow-up line of the reply is one of the clarifying
    questions, never one of the generic reflective lines: the reply is the
    styled form of a reaction, a space and that question, and the question
    is still read in the reply. *)
Theorem curious_follow_up (persona : Persona) (userMessage : string) (s : source) :
  In "Curious" (traits persona) ->
  includes userMessage "?" = false ->
  exists reaction followUp s',
    In reaction
       (reactionTemplates
          (polarity (analyzeSentiment (tokenize (toLowerCase userMessage))))) /\
    In followUp followUps /\
    ~ In followUp reflectiveFollowUps /\
    generateResponse persona userMessage s
    = applyPersonaStyle (reaction ++ " " ++ followUp)%string persona s' /\
    includes (fst (generateResponse persona userMessage s)) followUp = true.
Proof.
  intros Hcurious Hreactive.
  rewrite generateResponse_run. cbv zeta. rewrite Hreactive.
  unfold generateReactiveResponse, generateFollowUp.
  apply arrayIncludes_In in Hcurious. rewrite Hcurious.
  set (p := polarity (analyzeSentiment (tokenize (toLowerCase userMessage)))).
  replace (match p with positive => positive | negative => negative | neutral => neutral end)
    with p by (destruct p; reflexivity).
  rewrite !bind_run. cbn [ret fst snd].
  set (reaction := fst (randomChoice (reactionTemplates p) s)).
  set (s1 := snd (randomChoice (reactionTemplates p) s)).
  set (followUp := fst (randomChoice followUps s1)).
  set (s2 := snd (randomChoice followUps s1)).
  assert (Hr : In reaction (reactionTemplates p))
    by (apply randomChoice_In; destruct p; discriminate).
  assert (Hf : In followUp followUps) by (apply randomChoice_In; discriminate).
  exists reaction, followUp, s2.
  split; [exact Hr|]. split; [exact Hf|].
  split; [apply followUps_not_reflective; exact Hf|].
  split; [reflexivity|].
  destruct (applyPersonaStyle_appends (reaction ++ " " ++ followUp)%string persona s2)
    as [tail [E _]].
  rewrite E. apply includes_app_l. unfold formalityStyled.
  destruct (gt (Style.formality (communicationStyle persona)) (Fin (7 # 10)));
    [|destruct (lt (Style.formality (communicationStyle persona)) (Fin (3 # 10)))].
  - apply (followUps_survive makeFormal p); [apply makeFormal_survive | exact Hr | exact Hf].
  - apply (followUps_survive makeInformal p); [apply makeInformal_survive | exact Hr | exact Hf].
  - apply includes_app_r. apply includes_app_r. apply includes_self.
Qed.

Lemma curious_follow_up_witness :
  exists reaction followUp s',
    In reaction (reactionTemplates neutral) /\
    In followUp followUps /\
    ~ In followUp reflectiveFollowUps /\
    generateResponse curiousPersona "I planted a garden today" sampleSource
    = applyPersonaStyle (reaction ++ " " ++ followUp)%string curiousPersona s' /\
    includes (fst (generateResponse curiousPersona "I planted a garden today" sampleSource))
             followUp = true.
Proof.
  apply (curious_follow_up curiousPersona "I planted a garden today" sampleSource).
  - simpl. tauto.
  - reflexivity.
Defined.

(** ** Topics *)

(** C5, the claim as the specification words it, fails on the tokens
    "artistic" and "tech": "artistic" holds two keywords of creativity and
    counts twice in the score of the source, so that creativity comes before
    technology, while both topics have one matching token and technology is
    declared first. *)
Lemma extractTopics_counterexample :
  topicScore ["artistic"; "tech"] creativity = 2 /\
  matchingTokens ["artistic"; "tech"] creativity = 1 /\
  matchingTokens ["artistic"; "tech"] technology = 1 /\
  extractTopics ["artistic"; "tech"] = [creativity; technology] /\
  ~ StronglySorted (precedes (matchingTokens ["artistic"; "tech"]))
      (extractTopics ["artistic"; "tech"]).
Proof.
  repeat split; try reflexivity.
  change (extractTopics ["artistic"; "tech"]) with [creativity; technology].
  intros H. apply StronglySorted_inv in H as [_ H].
  apply Forall_inv in H. unfold precedes in H.
  change (matchingTokens ["artistic"; "tech"] creativity) with 1 in H.
  change (matchingTokens ["artistic"; "tech"] technology) with 1 in H.
  simpl in H. lia.
Qed.

Lemma sortInsert_In (x y : Topic * nat) (l : list (Topic * nat)) :
  In y (sortInsert byScoreDescending x l) <-> y = x \/ In y l.
Proof.
  induction l as [|z l IH]; simpl; [intuition|].
  destruct (byScoreDescending x z >? 0)%Z; simpl; [rewrite IH|]; intuition.
Qed.

Lemma sort_In (y : Topic * nat) (l : list (Topic * nat)) :
  In y (sort byScoreDescending l) <-> In y l.
Proof.
  induction l as [|x l IH]; simpl; [tauto|].
  rewrite sortInsert_In, IH. intuition.
Qed.

Lemma sortInsert_length (x : Topic * nat) (l : list (Topic * nat)) :
  List.length (sortInsert byScoreDescending x l) = S (List.length l).
Proof.
  induction l as [|z l IH]; simpl; [reflexivity|].
  destruct (byScoreDescending x z >? 0)%Z; simpl; congruence.
Qed.

Lemma sort_length (l : list (Topic * nat)) :
  List.length (sort byScoreDescending l) = List.length l.
Proof.
  induction l as [|x l IH]; simpl; [reflexivity|].
  rewrite sortInsert_length. congruence.
Qed.

(** Inserting an entry that was declared before all the others keeps the
    list in order: the sort is stable. *)
Lemma sortInsert_sorted (x : Topic * nat) (l : list (Topic * nat)) :
  StronglySorted entryPrecedes l ->
  Forall (declaredBefore x) l ->
  StronglySorted entryPrecedes (sortInsert byScoreDescending x l).
Proof.
  induction l as [|y l IH]; intros Hs Hd; simpl.
  - constructor; constructor.
  - apply StronglySorted_inv in Hs as [Hs Hy].
    pose proof (Forall_inv Hd) as Hxy. pose proof (Forall_inv_tail Hd) as Hd'.
    unfold byScoreDescending at 1.
    destruct (Z.gtb_spec (Z.of_nat (snd y) - Z.of_nat (snd x)) 0) as [Hgt|Hle].
    + constructor; [apply IH; assumption|].
      apply Forall_forall. intros z Hz. apply sortInsert_In in Hz as [->|Hz].
      * left. lia.
      * rewrite Forall_forall in Hy. auto.
    + constructor; [constructor; assumption|].
      apply Forall_forall. intros z [<-|Hz].
      * unfold entryPrecedes, declaredBefore in *. lia.
      * rewrite Forall_forall in Hy, Hd'.
        specialize (Hy z Hz). specialize (Hd' z Hz).
        unfold entryPrecedes, declaredBefore in *. lia.
Qed.

Lemma sort_sorted (l : list (Topic * nat)) :
  StronglySorted declaredBefore l ->
  StronglySorted entryPrecedes (sort byScoreDescending l).
Proof.
  induction l as [|x l IH]; intros Hs; simpl; [constructor|].
  apply StronglySorted_inv in Hs as [Hs Hx].
  apply sortInsert_sorted; [apply IH; exact Hs|].
  apply Forall_forall. intros y Hy. apply -> sort_In in Hy.
  rewrite Forall_forall in Hx. auto.
Qed.

Section SortedLists.
Context {A : Type} (R : A -> A -> Prop).

Lemma StronglySorted_firstn (n : nat) (l : list A) :
  StronglySorted R l -> StronglySorted R (firstn n l).
Proof.
  revert l. induction n as [|n IH]; intros [|x l] Hs; simpl; try constructor.
  - apply IH. apply StronglySorted_inv in Hs. tauto.
  - apply StronglySorted_inv in Hs as [_ Hx].
    apply Forall_forall. intros y Hy. rewrite Forall_forall in Hx.
    apply Hx. exact (In_firstn _ _ _ Hy).
Qed.

Lemma StronglySorted_filter (f : A -> bool) (l : list A) :
  StronglySorted R l -> StronglySorted R (filter f l).
Proof.
  induction l as [|x l IH]; intros Hs; simpl; [constructor|].
  apply StronglySorted_inv in Hs as [Hs Hx].
  destruct (f x); [|auto].
  constructor; [auto|].
  apply Forall_forall. intros y Hy. apply filter_In in Hy as [Hy _].
  rewrite Forall_forall in Hx. auto.
Qed.

Lemma StronglySorted_app_inv (l1 l2 : list A) :
  StronglySorted R (l1 ++ l2) ->
  forall x y, In x l1 -> In y l2 -> R x y.
Proof.
  induction l1 as [|a l1 IH]; intros Hs x y Hx Hy; [destruct Hx|].
  simpl in Hs. apply StronglySorted_inv in Hs as [Hs Ha].
  destruct Hx as [<-|Hx]; [|eauto].
  rewrite Forall_forall in Ha. apply Ha. apply in_or_app. auto.
Qed.

Lemma StronglySorted_NoDup (l : list A) :
  (forall x, ~ R x x) -> StronglySorted R l -> NoDup l.
Proof.
  intros Hirr. induction l as [|x l IH]; intros Hs; constructor.
  - apply StronglySorted_inv in Hs as [_ Hx]. rewrite Forall_forall in Hx.
    intros Hin. exact (Hirr x (Hx x Hin)).
  - apply IH. apply StronglySorted_inv in Hs. tauto.
Qed.
End SortedLists.

(** The score of the source: a token counts once for every keyword of the
    topic that it contains. *)
Lemma topicScore_sum (tokens : list string) (topic : Topic) :
  topicScore tokens topic = list_sum (map (keywordHits tokens) (topicKeywords topic)).
Proof. unfold topicScore. apply (fold_left_sum (keywordHits tokens)). Qed.

Lemma topicScores_declared (tokens : list string) :
  StronglySorted declaredBefore (topicScores tokens).
Proof.
  unfold topicScores, topicKeys. cbn [map].
  repeat constructor; unfold declaredBefore; cbn [declIndex fst]; lia.
Qed.

Lemma topicScores_all (tokens : list string) (t : Topic) :
  In (t, topicScore tokens t) (topicScores tokens).
Proof.
  unfold topicScores. apply (in_map (fun topic => (topic, topicScore tokens topic))).
  destruct t; simpl; tauto.
Qed.

Lemma topicScores_coherent (tokens : list string) (e : Topic * nat) :
  In e (topicScores tokens) -> snd e = topicScore tokens (fst e).
Proof.
  unfold topicScores. intros H. apply in_map_iff in H as [t [<- _]]. reflexivity.
Qed.

Lemma map_fst_sorted (score : Topic -> nat) (l : list (Topic * nat)) :
  (forall e, In e l -> snd e = score (fst e)) ->
  StronglySorted entryPrecedes l ->
  StronglySorted (precedes score) (map fst l).
Proof.
  induction l as [|x l IH]; intros Hc Hs; simpl; [constructor|].
  apply StronglySorted_inv in Hs as [Hs Hx].
  constructor; [apply IH; [intros e He; apply Hc; right; exact He | exact Hs]|].
  apply Forall_forall. intros t Ht. apply in_map_iff in Ht as [e [<- He]].
  rewrite Forall_forall in Hx. specialize (Hx e He).
  unfold precedes, entryPrecedes in *.
  rewrite <- (Hc x (or_introl eq_refl)), <- (Hc e (or_intror He)). exact Hx.
Qed.

Lemma precedes_irrefl (score : Topic -> nat) (t : Topic) : ~ precedes score t t.
Proof. unfold precedes. lia. Qed.

(** C5, amended: [extractTopics] returns at most 3 topics, without
    duplicates, each with a positive score, where the score of a topic is
    the sum over its keywords of the number of tokens that contain the
    keyword (a token that contains several keywords of a topic counts once
    for each); the list is sorted by score descending with ties in
    declaration order, and a topic with a positive score is left out only
    behind three returned topics that come before it. *)
Theorem extractTopics_spec (tokens : list string) :
  List.length (extractTopics tokens) <= 3 /\
  NoDup (extractTopics tokens) /\
  (forall t, In t (extractTopics tokens) -> 0 < topicScore tokens t) /\
  (forall t, topicScore tokens t
             = list_sum (map (keywordHits tokens) (topicKeywords t))) /\
  StronglySorted (precedes (topicScore tokens)) (extractTopics tokens) /\
  (forall t, 0 < topicScore tokens t -> ~ In t (extractTopics tokens) ->
             List.length (extractTopics tokens) = 3 /\
             forall u, In u (extractTopics tokens) -> precedes (topicScore tokens) u t).
Proof.
  unfold extractTopics.
  set (sorted := sort byScoreDescending (topicScores tokens)).
  set (keep := fun entry : Topic * nat => 0 <? snd entry).
  assert (Hsorted : StronglySorted entryPrecedes sorted)
    by (apply sort_sorted, topicScores_declared).
  assert (Hcoh : forall e, In e sorted -> snd e = topicScore tokens (fst e)).
  { intros e He. apply topicScores_coherent. apply -> sort_In in He. exact He. }
  assert (Hlen : List.length sorted = 6) by (unfold sorted; rewrite sort_length; reflexivity).
  assert (Hkept : forall e, In e (filter keep (firstn 3 sorted)) -> In e sorted).
  { intros e He. apply filter_In in He as [He _]. exact (In_firstn _ _ _ He). }
  assert (Hord : StronglySorted (precedes (topicScore tokens))
                   (map fst (filter keep (firstn 3 sorted)))).
  { apply map_fst_sorted; [intros e He; apply Hcoh, Hkept, He|].
    apply StronglySorted_filter, StronglySorted_firstn, Hsorted. }
  split; [|split; [|split; [|split; [|split]]]].
  - rewrite length_map.
    pose proof (filter_length_le keep (firstn 3 sorted)).
    pose proof (firstn_le_length 3 sorted). lia.
  - apply (StronglySorted_NoDup (precedes (topicScore tokens)));
      [apply precedes_irrefl | exact Hord].
  - intros t Ht. apply in_map_iff in Ht as [e [<- He]].
    rewrite <- (Hcoh e (Hkept e He)).
    apply filter_In in He as [_ He]. apply Nat.ltb_lt. exact He.
  - apply topicScore_sum.
  - exact Hord.
  - intros t Hpos Hout.
    assert (Hin : In (t, topicScore tokens t) sorted)
      by (apply sort_In, topicScores_all).
    rewrite <- (firstn_skipn 3 sorted) in Hin, Hsorted.
    apply in_app_or in Hin as [Hin|Hin].
    { destruct Hout. apply in_map_iff. exists (t, topicScore tokens t).
      split; [reflexivity|]. apply filter_In. split; [exact Hin|].
      apply Nat.ltb_lt. exact Hpos. }
    assert (Hbefore : forall e, In e (firstn 3 sorted) ->
                                entryPrecedes e (t, topicScore tokens t)).
    { intros e He. exact (StronglySorted_app_inv _ _ _ Hsorted e _ He Hin). }
    assert (Hall : filter keep (firstn 3 sorted) = firstn 3 sorted).
    { apply filter_all. intros e He. specialize (Hbefore e He).
      unfold keep. apply Nat.ltb_lt. unfold entryPrecedes in Hbefore.
      cbn [fst snd] in Hbefore. lia. }
    rewrite Hall. split.
    + rewrite length_map, length_firstn, Hlen. reflexivity.
    + intros u Hu. apply in_map_iff in Hu as [e [<- He]].
      specialize (Hbefore e He). unfold precedes, entryPrecedes in *.
      cbn [fst snd] in Hbefore.
      rewrite <- (Hcoh e (In_firstn _ _ _ He)). exact Hbefore.
Qed.

Lemma extractTopics_spec_witness :
  List.length (extractTopics ["software"; "design"; "finance"; "travel"; "code"]) = 3 /\
  forall u, In u (extractTopics ["software"; "design"; "finance"; "travel"; "code"]) ->
            precedes (topicScore ["software"; "design"; "finance"; "travel"; "code"])
                     u lifestyle.
Proof.
  apply (extractTopics_spec ["software"; "design"; "finance"; "travel"; "code"]).
  - apply Nat.ltb_lt. reflexivity.
  - vm_compute. intuition discriminate.
Defined.

(** ** The range of the scores *)

Lemma in_unit_Qred (q : Q) : (0 <= q)%Q -> (q <= 1)%Q -> in_unit (Fin (Qred q)).
Proof.
  intros H0 H1. unfold in_unit. rewrite Qred_correct. split; assumption.
Qed.

Lemma of_nat_pos (n : nat) : n <> 0 -> (0 < inject_Z (Z.of_nat n))%Q.
Proof.
  intros Hn. change (inject_Z 0 < inject_Z (Z.of_nat n))%Q.
  rewrite <- Zlt_Qlt. lia.
Qed.

Lemma of_nat_nonneg (n : nat) : (0 <= inject_Z (Z.of_nat n))%Q.
Proof.
  change (inject_Z 0 <= inject_Z (Z.of_nat n))%Q. rewrite <- Zle_Qle. lia.
Qed.

Lemma div_counts (a n : nat) :
  n <> 0 ->
  div (of_nat a) (of_nat n)
  = Fin (Qred (inject_Z (Z.of_nat a) / inject_Z (Z.of_nat n))).
Proof.
  intros Hn. unfold div, of_nat. rewrite Qeq_bool_of_nat.
  destruct (Nat.eqb_spec n 0); [contradiction | reflexivity].
Qed.

Lemma ratio_nonneg (a n : nat) :
  n <> 0 -> (0 <= inject_Z (Z.of_nat a) / inject_Z (Z.of_nat n))%Q.
Proof.
  intros Hn. apply Qle_shift_div_l; [apply of_nat_pos; exact Hn|].
  rewrite Qmult_0_l. apply of_nat_nonneg.
Qed.

(** A part of a non-empty total is a ratio in [0,1]. *)
Lemma div_counts_in_unit (a n : nat) :
  a <= n -> n <> 0 -> in_unit (div (of_nat a) (of_nat n)).
Proof.
  intros Ha Hn. rewrite div_counts by exact Hn.
  apply in_unit_Qred; [apply ratio_nonneg; exact Hn|].
  apply Qle_shift_div_r; [apply of_nat_pos; exact Hn|].
  rewrite Qmult_1_l. rewrite <- Zle_Qle. lia.
Qed.

Lemma min_one_in_unit (q : Q) :
  (0 <= q)%Q -> in_unit (Num.min (Fin q) (of_nat 1)).
Proof.
  intros H0. change (of_nat 1) with (Fin 1). unfold Num.min, lt, gt, Qlt_bool.
  destruct (Qle_bool q 1) eqn:E; cbn [negb in_unit].
  - apply Qle_bool_iff in E. split; assumption.
  - split; discriminate.
Qed.

(** The clamp of [analyzeEnergy] brings every number but [NaN] into [0,1]. *)
Lemma clamp_in_unit (a : number) :
  a <> NaN -> in_unit (Num.max (of_nat 0) (Num.min (of_nat 1) a)).
Proof.
  change (of_nat 0) with (Fin 0). change (of_nat 1) with (Fin 1).
  destruct a as [q| | |]; intros Ha; try congruence; try (split; discriminate).
  unfold Num.min, Num.max, lt, gt, Qlt_bool.
  destruct (Qle_bool 1 q) eqn:E1; cbn [negb].
  - cbn. split; discriminate.
  - destruct (Qle_bool q 0) eqn:E0; cbn [negb in_unit].
    + split; discriminate.
    + split.
      * destruct (Qlt_le_dec q 0) as [H|H]; [|exact H].
        apply Qlt_le_weak, Qle_bool_iff in H. congruence.
      * destruct (Qlt_le_dec 1 q) as [H|H]; [|exact H].
        apply Qlt_le_weak, Qle_bool_iff in H. congruence.
Qed.

Lemma strength_in_unit (tokens : list string) :
  in_unit (strength (analyzeSentiment tokens)).
Proof.
  unfold analyzeSentiment. rewrite sentiment_scores. cbn [Nat.add].
  set (total := positiveCount tokens + negativeCount tokens).
  destruct (Nat.eqb_spec total 0) as [|Hne]; [split; discriminate|].
  assert (Hlen : List.length tokens <> 0).
  { pose proof (lexiconCount_le positiveWords tokens).
    pose proof (lexiconCount_le negativeWords tokens).
    unfold total, positiveCount, negativeCount in Hne. lia. }
  assert (Hs : in_unit
                 (Num.min (mul (div (of_nat total) (of_nat (List.length tokens)))
                               (of_nat 10)) (of_nat 1))).
  { rewrite div_counts by exact Hlen. cbn [mul of_nat].
    apply min_one_in_unit. rewrite Qred_correct.
    apply Qmult_le_0_compat; [|discriminate].
    rewrite Qred_correct. apply ratio_nonneg. exact Hlen. }
  destruct (_ >? 0)%Z; [exact Hs|]. destruct (_ <? 0)%Z; exact Hs.
Qed.

Lemma formality_in_unit (text : string) (tokens : list string) :
  in_unit (analyzeFormality text tokens).
Proof.
  unfold analyzeFormality.
  destruct (fold_left formalityStep tokens (0, 0)) as [formalScore informalScore].
  set (f := formalScore + _). set (i := informalScore + _).
  destruct (Nat.eqb_spec (f + i) 0) as [|Hne].
  - split; discriminate.
  - apply div_counts_in_unit; lia.
Qed.

Lemma energy_in_unit (text : string) (tokens : list string) :
  tokens <> [] -> in_unit (analyzeEnergy text tokens).
Proof.
  intros Hne. unfold analyzeEnergy. apply clamp_in_unit.
  assert (Hlen : List.length tokens <> 0) by (destruct tokens; [congruence | discriminate]).
  unfold of_nat, of_Z. cbn [mul add div].
  destruct (Qeq_bool (Qred (inject_Z (Z.of_nat (List.length tokens)) * (8 # 10))) 0) eqn:E;
    [|discriminate].
  exfalso. apply Qeq_bool_eq in E. rewrite Qred_correct in E.
  apply Qmult_integral in E as [E|E]; [|discriminate E].
  pose proof (of_nat_pos _ Hlen) as Hpos. rewrite E in Hpos. discriminate Hpos.
Qed.

Lemma nodup_length_le (l : list string) :
  List.length (nodup string_dec l) <= List.length l.
Proof.
  induction l as [|x l IH]; simpl; [lia|].
  destruct (in_dec string_dec x l); simpl; lia.
Qed.

(** On a text with at least one token and one sentence the six scores
    lie in [0,1]. *)
Lemma analyzeText_in_unit (text : string) :
  tokenize text <> [] -> splitSentences text <> [] ->
  let a := analyzeText text in
  in_unit (formality a) /\ in_unit (energy a) /\ in_unit (strength (sentiment a)) /\
  in_unit (richness (vocabulary a)) /\
  in_unit (questionRatio a) /\ in_unit (exclamationRatio a).
Proof.
  intros Ht Hs. cbv zeta.
  cbn [analyzeText formality energy sentiment vocabulary questionRatio exclamationRatio].
  assert (Hlt : List.length (tokenize text) <> 0)
    by (destruct (tokenize text); [congruence | discriminate]).
  assert (Hls : List.length (splitSentences text) <> 0)
    by (destruct (splitSentences text); [congruence | discriminate]).
  split; [apply formality_in_unit|].
  split; [apply energy_in_unit; exact Ht|].
  split; [apply strength_in_unit|].
  split; [apply div_counts_in_unit; [apply nodup_length_le | exact Hlt]|].
  split; apply div_counts_in_unit; try exact Hls; apply filter_length_le.
Qed.

(** C1 fails on the text of fifty full stops: with no token and no
    sentence the energy, the vocabulary richness, the question ratio and
    the exclamation ratio are all [NaN], outside [0,1], while the formality
    and the sentiment strength take their defaults. *)
Theorem analyzeText_fiftyStops :
  String.length (trim fiftyStops) = 50 /\
  tokenize fiftyStops = [] /\ splitSentences fiftyStops = [] /\
  energy (analyzeText fiftyStops) = NaN /\
  richness (vocabulary (analyzeText fiftyStops)) = NaN /\
  questionRatio (analyzeText fiftyStops) = NaN /\
  exclamationRatio (analyzeText fiftyStops) = NaN /\
  formality (analyzeText fiftyStops) = Fin (1 # 2) /\
  strength (sentiment (analyzeText fiftyStops)) = Fin (3 # 10) /\
  ~ in_unit (energy (analyzeText fiftyStops)) /\
  ~ in_unit (richness (vocabulary (analyzeText fiftyStops))) /\
  ~ in_unit (questionRatio (analyzeText fiftyStops)) /\
  ~ in_unit (exclamationRatio (analyzeText fiftyStops)).
Proof.
  repeat split; try (vm_compute; reflexivity); vm_compute; tauto.
Qed.

(** * Further properties *)

(** ** The tokenizer *)

Ltac each_char c :=
  destruct c as [[] [] [] [] [] [] [] []]; vm_compute; try reflexivity; try discriminate.

Lemma lowerChar_idempotent (c : ascii) : lowerChar (lowerChar c) = lowerChar c.
Proof. each_char c. Qed.

Lemma toLowerCase_idempotent (s : string) : toLowerCase (toLowerCase s) = toLowerCase s.
Proof.
  induction s as [|c s IH]; simpl; [reflexivity|].
  rewrite lowerChar_idempotent, IH. reflexivity.
Qed.

Lemma cleanChar_token (c : ascii) :
  isSpace (cleanChar c) = false -> isTokenChar (cleanChar c) = true.
Proof. each_char c. Qed.

Lemma cleanChar_separator (c : ascii) :
  isSpace c || isTerminator c = true -> isSpace (cleanChar c) = true.
Proof. each_char c. Qed.

Lemma blankPunctuation_toLowerCase (P : ascii -> bool) (s : string) :
  allChars P (blankPunctuation (toLowerCase s)) = allChars (fun c => P (cleanChar c)) s.
Proof.
  induction s as [|c s IH]; simpl; [reflexivity|].
  rewrite IH. reflexivity.
Qed.

Lemma allChars_true (P : ascii -> bool) (s : string) :
  (forall c, P c = true) -> allChars P s = true.
Proof.
  intros H. induction s as [|c s IH]; simpl; [reflexivity|].
  rewrite H, IH. reflexivity.
Qed.

Section SplitMore.
Variable delim : ascii -> bool.
Variable P : ascii -> bool.

(** The parts are made of characters of the text. *)
Lemma splitRunsFrom_chars (s cur : string) (inrun : bool) :
  allChars P cur = true -> allChars P s = true ->
  Forall (fun part => allChars P part = true) (splitRunsFrom delim s cur inrun).
Proof.
  revert cur inrun. induction s as [|c s IH]; intros cur inrun Hcur Hs; simpl.
  - constructor; [exact Hcur | constructor].
  - simpl in Hs. apply andb_prop in Hs as [Hc Hs].
    destruct (delim c).
    + destruct inrun; [apply IH; auto|].
      constructor; [exact Hcur | apply IH; auto].
    + apply IH; [|exact Hs]. rewrite allChars_app, Hcur. simpl. rewrite Hc. reflexivity.
Qed.

(** A text made of delimiters only has empty parts only. *)
Lemma splitRunsFrom_blank (s : string) (inrun : bool) :
  allChars delim s = true ->
  Forall (fun part => part = "") (splitRunsFrom delim s "" inrun).
Proof.
  revert inrun. induction s as [|c s IH]; intros inrun Hs; simpl.
  - constructor; [reflexivity | constructor].
  - simpl in Hs. apply andb_prop in Hs as [Hc Hs]. rewrite Hc.
    destruct inrun; [apply IH; exact Hs|].
    constructor; [reflexivity | apply IH; exact Hs].
Qed.
End SplitMore.

Lemma allChars_and (P R : ascii -> bool) (s : string) :
  allChars P s = true -> allChars R s = true ->
  allChars (fun c => P c && R c) s = true.
Proof.
  induction s as [|c s IH]; simpl; [reflexivity|].
  intros HP HR. apply andb_prop in HP as [HP1 HP2]. apply andb_prop in HR as [HR1 HR2].
  rewrite HP1, HR1, IH by assumption. reflexivity.
Qed.

Lemma removeChars_empty (P : ascii -> bool) (s : string) :
  removeChars P s = "" -> allChars P s = true.
Proof.
  induction s as [|c s IH]; simpl; [reflexivity|].
  destruct (P c); [exact IH | discriminate].
Qed.

(** X1: every token is a non-empty string of small letters, digits and
    underscores. *)
Theorem tokenize_tokens (text token : string) :
  In token (tokenize text) ->
  token <> "" /\ allChars isTokenChar token = true.
Proof.
  unfold tokenize. intros H. apply filter_In in H as [Hin Hlen].
  split; [intros ->; discriminate Hlen|].
  set (cleaned := blankPunctuation (toLowerCase text)) in *.
  assert (Hclean : allChars (fun c => isSpace c || isTokenChar c) cleaned = true).
  { unfold cleaned. rewrite blankPunctuation_toLowerCase. apply allChars_true.
    intros c. pose proof (cleanChar_token c) as Hc.
    destruct (isSpace (cleanChar c)); [reflexivity | apply Hc; reflexivity]. }
  pose proof (splitRunsFrom_parts isSpace cleaned "" false eq_refl) as Hparts.
  pose proof (splitRunsFrom_chars isSpace _ cleaned "" false eq_refl Hclean) as Hchars.
  rewrite Forall_forall in Hparts, Hchars.
  specialize (Hparts token Hin). specialize (Hchars token Hin).
  pose proof (allChars_and _ _ _ Hparts Hchars) as Hboth.
  revert Hboth. apply allChars_weaken. intros c. unfold non.
  destruct (isSpace c), (isTokenChar c); simpl; congruence.
Qed.

Lemma tokenize_tokens_witness :
  "it" <> "" /\ allChars isTokenChar "it" = true.
Proof.
  apply (tokenize_tokens "Hello, it's ME_2!" "it").
  vm_compute. tauto.
Defined.

(** X2: lower-casing the text first does not change its tokens, as
    [generateResponse] does before it calls [tokenize]. *)
Theorem tokenize_toLowerCase (text : string) :
  tokenize (toLowerCase text) = tokenize text.
Proof. unfold tokenize. rewrite toLowerCase_idempotent. reflexivity. Qed.

(** A text with a token has a sentence. *)
Lemma tokens_need_sentence (text : string) :
  splitSentences text = [] -> tokenize text = [].
Proof.
  intros Hnone.
  assert (Hsep : allChars (fun c => isSpace c || isTerminator c) text = true).
  { apply removeChars_empty. rewrite <- removeChars_removeChars.
    pose proof (splitRunsFrom_concat isTerminator text "" false) as Hcat.
    cbn [append] in Hcat. rewrite <- Hcat by discriminate.
    rewrite <- concat_keep_nonblank.
    change (filter (fun s => 0 <? String.length (trim s)) (splitRunsFrom isTerminator text "" false))
      with (splitSentences text).
    rewrite Hnone. reflexivity. }
  unfold tokenize, splitRuns. apply filter_none. intros part Hpart.
  assert (Hblank : allChars isSpace (blankPunctuation (toLowerCase text)) = true).
  { rewrite blankPunctuation_toLowerCase. revert Hsep. apply allChars_weaken.
    intros c. apply cleanChar_separator. }
  pose proof (splitRunsFrom_blank isSpace _ false Hblank) as Hall.
  rewrite Forall_forall in Hall. rewrite (Hall part Hpart). reflexivity.
Qed.

(** X3: a text with at least one token has at least one sentence, and its
    formality, energy, sentiment strength, vocabulary richness, question
    ratio and exclamation ratio are all in [0,1]. *)
Theorem scores_in_unit (text : string) :
  tokenize text <> [] ->
  splitSentences text <> [] /\
  in_unit (formality (analyzeText text)) /\
  in_unit (energy (analyzeText text)) /\
  in_unit (strength (sentiment (analyzeText text))) /\
  in_unit (richness (vocabulary (analyzeText text))) /\
  in_unit (questionRatio (analyzeText text)) /\
  in_unit (exclamationRatio (analyzeText text)).
Proof.
  intros Htokens.
  assert (Hsentences : splitSentences text <> []).
  { intros H. apply Htokens. apply tokens_need_sentence. exact H. }
  split; [exact Hsentences|].
  exact (analyzeText_in_unit text Htokens Hsentences).
Qed.

Lemma scores_in_unit_witness :
  splitSentences sampleText <> [] /\
  in_unit (formality (analyzeText sampleText)) /\
  in_unit (energy (analyzeText sampleText)) /\
  in_unit (strength (sentiment (analyzeText sampleText))) /\
  in_unit (richness (vocabulary (analyzeText sampleText))) /\
  in_unit (questionRatio (analyzeText sampleText)) /\
  in_unit (exclamationRatio (analyzeText sampleText)).
Proof.
  apply (scores_in_unit sampleText). vm_compute. discriminate.
Defined.

(** X4: the formality and the sentiment strength are in [0,1] for every
    text, also without tokens or sentences: their zero totals are replaced
    by the defaults 0.5 and 0.3. *)
Theorem guarded_scores_in_unit (text : string) :
  in_unit (formality (analyzeText text)) /\
  in_unit (strength (sentiment (analyzeText text))).
Proof.
  split; [apply formality_in_unit | apply strength_in_unit].
Qed.

(** ** Texts without tokens *)

Lemma concat_blank (parts : list string) :
  Forall (fun part => part = "") parts -> String.concat "" parts = "".
Proof.
  induction parts as [|p parts IH]; intros H; [reflexivity|].
  rewrite concat_cons, (Forall_inv H), IH by exact (Forall_inv_tail H). reflexivity.
Qed.

Lemma cleanChar_word (c : ascii) : isSpace (cleanChar c) = true -> isWord c = false.
Proof. each_char c. Qed.

(** Without tokens every character of the text is cleaned to white space. *)
Lemma no_tokens_chars (text : string) :
  tokenize text = [] -> allChars (fun c => isSpace (cleanChar c)) text = true.
Proof.
  unfold tokenize, splitRuns. intros Hnone.
  rewrite <- blankPunctuation_toLowerCase. apply removeChars_empty.
  pose proof (splitRunsFrom_concat isSpace (blankPunctuation (toLowerCase text)) "" false)
    as Hcat.
  cbn [append] in Hcat. rewrite <- Hcat by discriminate.
  apply concat_blank. apply Forall_forall. intros part Hpart.
  destruct part as [|c part]; [reflexivity|].
  assert (Hin : In (String c part)
                   (filter (fun word => 0 <? String.length word)
                      (splitRunsFrom isSpace (blankPunctuation (toLowerCase text)) "" false)))
    by (apply filter_In; split; [exact Hpart | reflexivity]).
  rewrite Hnone in Hin. destruct Hin.
Qed.

Lemma countCapitalWords_no_word (s : string) :
  allChars (non isWord) s = true -> countCapitalWordsFrom s 0 true = 0.
Proof.
  induction s as [|c s IH]; simpl; [reflexivity|].
  intros H. apply andb_prop in H as [Hc Hs]. unfold non in Hc.
  destruct (isWord c); [discriminate|]. simpl. auto.
Qed.

Lemma Qred_sign (q : Q) :
  (0 < q)%Q -> Qeq_bool (Qred q) 0 = false /\ Qlt_bool (Qred q) 0 = false.
Proof.
  intros Hq. split.
  - destruct (Qeq_bool (Qred q) 0) eqn:E; [|reflexivity].
    apply Qeq_bool_eq in E. rewrite Qred_correct in E. rewrite E in Hq.
    discriminate Hq.
  - unfold Qlt_bool. replace (Qle_bool 0 (Qred q)) with true; [reflexivity|].
    symmetry. apply Qle_bool_iff. rewrite Qred_correct. apply Qlt_le_weak. exact Hq.
Qed.

(** X5: for a text without tokens the vocabulary richness is NaN, and so is
    the energy unless the text holds an exclamation mark, in which case the
    energy is exactly 1; without sentences the two ratios and the average
    sentence length are NaN as well. *)
Theorem scores_without_tokens (text : string) :
  tokenize text = [] ->
  richness (vocabulary (analyzeText text)) = NaN /\
  energy (analyzeText text) = (if countExclamations text =? 0 then NaN else Fin 1) /\
  (splitSentences text = [] ->
   questionRatio (analyzeText text) = NaN /\
   exclamationRatio (analyzeText text) = NaN /\
   avgWordsPerSentence (analyzeText text) = NaN).
Proof.
  intros Hnone.
  cbn [analyzeText vocabulary richness energy questionRatio exclamationRatio
       avgWordsPerSentence].
  rewrite Hnone. split; [reflexivity|]. split.
  - unfold analyzeEnergy, countCapitalWords.
    rewrite countCapitalWords_no_word.
    2:{ generalize (no_tokens_chars text Hnone). apply allChars_weaken.
        intros c Hc. unfold non. rewrite (cleanChar_word c Hc). reflexivity. }
    cbn [fold_left List.length].
    destruct (countExclamations text) as [|e]; [reflexivity|].
    cbn [Nat.eqb].
    set (score := (0 + Z.of_nat (S e) * 2 + Z.of_nat 0)%Z).
    change (mul (of_nat 0) (Fin (3 # 10))) with (Fin 0).
    change (mul (of_nat 0) (Fin (8 # 10))) with (Fin 0).
    unfold of_Z. cbn [add div].
    change (Qeq_bool 0 0) with true. cbv iota.
    assert (Hpos : (0 < inject_Z score + 0)%Q).
    { rewrite Qplus_0_r. change (inject_Z 0 < inject_Z score)%Q.
      rewrite <- Zlt_Qlt. unfold score. lia. }
    destruct (Qred_sign _ Hpos) as [H1 H2]. rewrite H1, H2. reflexivity.
  - intros Hs. rewrite Hs. repeat split; reflexivity.
Qed.

Lemma scores_without_tokens_witness :
  richness (vocabulary (analyzeText "?!")) = NaN /\
  energy (analyzeText "?!") = Fin 1 /\
  (splitSentences "?!" = [] ->
   questionRatio (analyzeText "?!") = NaN /\
   exclamationRatio (analyzeText "?!") = NaN /\
   avgWordsPerSentence (analyzeText "?!") = NaN).
Proof.
  apply (scores_without_tokens "?!"). reflexivity.
Defined.

(** ** Punctuation *)

Lemma countExclamations_countChar (s : string) :
  countExclamations s = countChar "!" s.
Proof. induction s as [|c s IH]; simpl; congruence. Qed.

Lemma countQuestions_countChar (s : string) :
  countQuestions s = countChar "?" s.
Proof. induction s as [|c s IH]; simpl; congruence. Qed.

(** Every match of an ellipsis takes two full stops at least. *)
Lemma countEllipses_bound (s : string) (run : nat) :
  2 * countEllipsesFrom s run <= run + countChar "." s.
Proof.
  revert run. induction s as [|c s IH]; intros run; cbn [countEllipsesFrom countChar].
  - destruct (Nat.leb_spec 2 run); lia.
  - destruct (Ascii.eqb c ".").
    + specialize (IH (S run)). lia.
    + specialize (IH 0). destruct (Nat.leb_spec 2 run); lia.
Qed.

(** Every match of a dash takes a hyphen of its own. *)
Lemma countDashes_bound (s : string) (open : bool) :
  countDashesFrom s open <= countChar "-" s.
Proof.
  revert open. induction s as [|c s IH]; intros open; simpl; [lia|].
  destruct (Ascii.eqb c "-"); simpl.
  - destruct open; [specialize (IH false) | specialize (IH true)]; lia.
  - apply IH.
Qed.

Lemma four_counts (s : string) :
  countChar "!" s + countChar "?" s + countChar "." s + countChar "-" s
  <= String.length s.
Proof.
  induction s as [|c s IH]; simpl; [lia|].
  destruct (Ascii.eqb_spec c "!") as [->|]; simpl; [lia|].
  destruct (Ascii.eqb_spec c "?") as [->|]; simpl; [lia|].
  destruct (Ascii.eqb_spec c ".") as [->|]; simpl; [lia|].
  destruct (Ascii.eqb c "-"); simpl; lia.
Qed.

(** X6: the punctuation density of a text that is not empty lies in [0,1],
    since every counted match takes characters of its own; the density of
    the empty text is NaN. *)
Theorem punctuation_density (text : string) :
  density (analyzePunctuation "") = NaN /\
  (text <> "" -> in_unit (density (analyzePunctuation text))).
Proof.
  split; [reflexivity|]. intros Hne.
  unfold analyzePunctuation, punctuationCounts.
  cbn [density exclamation question ellipsis dash fold_left].
  apply div_counts_in_unit; [|destruct text; [congruence | discriminate]].
  rewrite countExclamations_countChar, countQuestions_countChar.
  pose proof (countEllipses_bound text 0). pose proof (countDashes_bound text false).
  pose proof (four_counts text). unfold countEllipses, countDashes. lia.
Qed.

Lemma punctuation_density_witness :
  in_unit (density (analyzePunctuation "Wait... what?! -- no")).
Proof.
  apply (punctuation_density "Wait... what?! -- no"). discriminate.
Defined.

(** ** Random choices, again *)

(** X7: for every draw in [0,1) [randomChoice] returns an element of a
    non-empty array, and it uses exactly one draw of the source. *)
Theorem randomChoice_in_array (array : list string) (s : source) :
  array <> [] ->
  In (fst (randomChoice array s)) array /\
  snd (randomChoice array s) = (fun n => s (S n)).
Proof.
  intros Hne. unfold randomChoice, bind, random, ret. cbn [fst snd].
  split; [|reflexivity].
  apply nth_In. apply randomIndex_lt. destruct array; [congruence | simpl; lia].
Qed.

Lemma randomChoice_in_array_witness :
  In (fst (randomChoice followUps sampleSource)) followUps /\
  snd (randomChoice followUps sampleSource) = (fun n => sampleSource (S n)).
Proof.
  apply (randomChoice_in_array followUps sampleSource). discriminate.
Defined.

(** ** Sorting, in general *)

Section SortFacts.
Context {A : Type} (cmp : A -> A -> Z).

Lemma sortInsert_perm (x : A) (l : list A) : Permutation (x :: l) (sortInsert cmp x l).
Proof.
  induction l as [|y l IH]; simpl; [apply Permutation_refl|].
  destruct (cmp x y >? 0)%Z; [|apply Permutation_refl].
  apply perm_trans with (y :: x :: l); [apply perm_swap | apply perm_skip, IH].
Qed.

Lemma sort_perm (l : list A) : Permutation l (sort cmp l).
Proof.
  induction l as [|x l IH]; simpl; [apply perm_nil|].
  apply perm_trans with (x :: sort cmp l); [apply perm_skip, IH | apply sortInsert_perm].
Qed.

Context (key : A -> nat) (P : A -> Prop).
Hypothesis cmp_key : forall a b, P a -> P b -> (cmp a b >? 0)%Z = (key a <? key b).

Lemma sortInsert_by_key (x : A) (l : list A) :
  P x -> Forall P l ->
  StronglySorted (fun a b => key b <= key a) l ->
  StronglySorted (fun a b => key b <= key a) (sortInsert cmp x l).
Proof.
  intros Hx. induction l as [|y l IH]; intros HP Hs; simpl.
  - constructor; constructor.
  - apply StronglySorted_inv in Hs as [Hs Hy].
    pose proof (Forall_inv HP) as Py. pose proof (Forall_inv_tail HP) as HP'.
    rewrite (cmp_key x y Hx Py).
    destruct (Nat.ltb_spec (key x) (key y)) as [Hlt|Hge].
    + constructor; [apply IH; assumption|].
      apply Forall_forall. intros z Hz.
      apply (Permutation_in _ (Permutation_sym (sortInsert_perm x l))) in Hz.
      destruct Hz as [<-|Hz]; [lia|]. rewrite Forall_forall in Hy. auto.
    + constructor; [constructor; assumption|].
      apply Forall_forall. intros z [<-|Hz]; [exact Hge|].
      rewrite Forall_forall in Hy. specialize (Hy z Hz). lia.
Qed.

Lemma sort_by_key (l : list A) :
  Forall P l -> StronglySorted (fun a b => key b <= key a) (sort cmp l).
Proof.
  induction l as [|x l IH]; intros HP; simpl; [constructor|].
  apply sortInsert_by_key;
    [exact (Forall_inv HP) | | apply IH; exact (Forall_inv_tail HP)].
  apply Forall_forall. intros y Hy.
  apply (Permutation_in _ (Permutation_sym (sort_perm l))) in Hy.
  pose proof (Forall_inv_tail HP) as HP'. rewrite Forall_forall in HP'. auto.
Qed.
End SortFacts.

Lemma filter_partition {A : Type} (f : A -> bool) (l : list A) :
  Permutation (filter f l ++ filter (fun x => negb (f x)) l) l.
Proof.
  induction l as [|x l IH]; simpl; [apply perm_nil|].
  destruct (f x); simpl; [apply perm_skip, IH|].
  apply Permutation_sym, Permutation_cons_app, Permutation_sym, IH.
Qed.

Lemma objectEntries_perm {V : Type} (object : list (string * V)) :
  Permutation (objectEntries object) object.
Proof.
  unfold objectEntries.
  apply perm_trans with
    (filter (fun e => isArrayIndex (fst e)) object
     ++ filter (fun e => negb (isArrayIndex (fst e))) object).
  - apply Permutation_app_tail, Permutation_sym, sort_perm.
  - apply (filter_partition (fun e => isArrayIndex (fst e))).
Qed.

Lemma NoDup_map_filter {A B : Type} (g : A -> B) (f : A -> bool) (l : list A) :
  NoDup (map g l) -> NoDup (map g (filter f l)).
Proof.
  induction l as [|x l IH]; simpl; [auto|].
  intros H. inversion H as [|? ? Hx Hl]; subst.
  destruct (f x); simpl; [|auto].
  constructor; [|auto].
  intros Hin. apply Hx. apply in_map_iff in Hin as [y [Hy Hin]].
  apply in_map_iff. exists y. split; [exact Hy|].
  apply filter_In in Hin. tauto.
Qed.

Lemma NoDup_firstn_list {A : Type} (n : nat) (l : list A) :
  NoDup l -> NoDup (firstn n l).
Proof.
  revert l. induction n as [|n IH]; intros [|x l] H; simpl; try constructor.
  - inversion H; subst. intros Hin. apply In_firstn in Hin. contradiction.
  - inversion H; subst. auto.
Qed.

(** ** Frequent words *)

Lemma lookup_bumpEntry (k token : string) (object : list (string * Freq)) :
  lookup k (bumpEntry token object)
  = if String.eqb k token then
      Some match lookup token object with
           | Some v => addOne v
           | None => firstValue token
           end
    else lookup k object.
Proof.
  induction object as [|[key v] rest IH]; simpl.
  - destruct (String.eqb k token); reflexivity.
  - destruct (String.eqb_spec token key) as [->|Hne]; simpl.
    + destruct (String.eqb k key); reflexivity.
    + rewrite IH. destruct (String.eqb_spec k token) as [->|Hk].
      * destruct (String.eqb_spec token key); [contradiction | reflexivity].
      * reflexivity.
Qed.

Lemma keys_bumpEntry (token k : string) (object : list (string * Freq)) :
  In k (map fst (bumpEntry token object)) <-> k = token \/ In k (map fst object).
Proof.
  induction object as [|[key v] rest IH]; simpl; [intuition|].
  destruct (String.eqb_spec token key) as [->|Hne]; simpl; [intuition|].
  rewrite IH. intuition.
Qed.

Lemma NoDup_bumpEntry (token : string) (object : list (string * Freq)) :
  NoDup (map fst object) -> NoDup (map fst (bumpEntry token object)).
Proof.
  induction object as [|[key v] rest IH]; simpl; intros H.
  - constructor; [intros [] | constructor].
  - inversion H as [|? ? Hkey Hrest]; subst.
    destruct (String.eqb_spec token key) as [->|Hne]; simpl.
    + constructor; assumption.
    + constructor; [|auto]. intros Hin. apply keys_bumpEntry in Hin as [->|Hin]; auto.
Qed.

Lemma In_lookup {V : Type} (k : string) (v : V) (object : list (string * V)) :
  NoDup (map fst object) -> In (k, v) object -> lookup k object = Some v.
Proof.
  induction object as [|[key w] rest IH]; simpl; intros Hnd Hin; [destruct Hin|].
  inversion Hnd as [|? ? Hkey Hrest]; subst.
  destruct Hin as [E|Hin].
  - inversion E; subst. rewrite String.eqb_refl. reflexivity.
  - destruct (String.eqb_spec k key) as [->|]; [|auto].
    destruct Hkey. apply in_map_iff. exists (key, v). auto.
Qed.

Lemma lookup_In {V : Type} (k : string) (v : V) (object : list (string * V)) :
  lookup k object = Some v -> In (k, v) object.
Proof.
  induction object as [|[key w] rest IH]; simpl; [discriminate|].
  destruct (String.eqb_spec k key) as [->|]; [|auto].
  intros E. inversion E; subst. auto.
Qed.

(** What [wordFreq] holds once the tokens are counted, last token first. *)
Lemma wordFreq_counted (l : list string) :
  let object := fold_right (fun token object => countToken object token) [] l in
  NoDup (map fst object) /\
  forall k, lookup k object
            = if String.eqb k "__proto__" || (occurrences l k =? 0) then None
              else Some (countedValue k (occurrences l k)).
Proof.
  induction l as [|t l [IHnd IH]]; cbv zeta in *.
  - split; [constructor|]. intros k. cbn. rewrite orb_true_r. reflexivity.
  - cbn [fold_right]. set (object := fold_right _ [] l) in *.
    unfold countToken. unfold occurrences in *.
    destruct (String.eqb_spec t "__proto__") as [->|Hproto].
    + split; [exact IHnd|]. intros k. rewrite IH.
      destruct (String.eqb_spec k "__proto__") as [->|Hk]; [reflexivity|].
      rewrite count_occ_cons_neq by congruence. reflexivity.
    + split; [apply NoDup_bumpEntry; exact IHnd|].
      intros k. rewrite lookup_bumpEntry.
      destruct (String.eqb_spec k t) as [->|Hk].
      * rewrite count_occ_cons_eq by reflexivity.
        destruct (String.eqb_spec t "__proto__"); [contradiction|]. cbn [orb Nat.eqb].
        rewrite IH. destruct (String.eqb_spec t "__proto__"); [contradiction|].
        cbn [orb]. unfold countedValue, firstValue.
        destruct (count_occ string_dec l t); cbn [Nat.eqb];
          destruct (String.eqb t "constructor"); reflexivity.
      * rewrite IH. rewrite count_occ_cons_neq by congruence. reflexivity.
Qed.

Lemma wordFreqOf_counted (tokens : list string) :
  NoDup (map fst (wordFreqOf tokens)) /\
  forall k, lookup k (wordFreqOf tokens)
            = if String.eqb k "__proto__" || (occurrences tokens k =? 0) then None
              else Some (countedValue k (occurrences tokens k)).
Proof.
  pose proof (wordFreq_counted (rev tokens)) as H. cbv zeta in H.
  rewrite (fold_left_rev_right (fun token object => countToken object token)) in H.
  change (fold_left (fun x y => countToken x y) tokens []) with (wordFreqOf tokens) in H.
  unfold occurrences in *. destruct H as [Hnd H]. split; [exact Hnd|].
  intros k. rewrite H, count_occ_rev. reflexivity.
Qed.

(** An entry that passes [freq > 1 && word.length > 3]. *)
Lemma frequent_entry (tokens : list string) (e : string * Freq) :
  In e (wordFreqOf tokens) ->
  moreThanOnce (snd e) && (3 <? String.length (fst e)) = true ->
  snd e = Count (occurrences tokens (fst e)) /\
  1 < occurrences tokens (fst e) /\ 3 < String.length (fst e) /\
  fst e <> "constructor" /\ fst e <> "__proto__".
Proof.
  destruct (wordFreqOf_counted tokens) as [Hnd Hlook].
  destruct e as [k v]. cbn [fst snd]. intros Hin Hkeep.
  apply andb_prop in Hkeep as [Hmore Hlen]. apply Nat.ltb_lt in Hlen.
  pose proof (In_lookup k v _ Hnd Hin) as E. rewrite Hlook in E.
  destruct (String.eqb_spec k "__proto__") as [->|Hproto]; [discriminate E|].
  cbn [orb] in E. destruct (occurrences tokens k =? 0); [discriminate E|].
  inversion E as [Ev]. unfold countedValue in *.
  destruct (String.eqb_spec k "constructor") as [->|Hcons].
  - subst v. discriminate Hmore.
  - subst v. cbn [moreThanOnce] in Hmore. apply Nat.ltb_lt in Hmore. auto.
Qed.

(** X8: the frequent words of a text are at most 8 distinct words, each
    with more than 3 characters and more than one occurrence among the
    tokens of the text, in descending order of their number of occurrences;
    the tokens
    "constructor" and "__proto__" are never frequent words, however often
    they occur; and when fewer than 8 words are returned, every other word
    with more than 3 characters and more than one occurrence is among them. *)
Theorem frequentWords_spec (text : string) :
  let tokens := tokenize text in
  List.length (frequentWords tokens) <= 8 /\
  NoDup (frequentWords tokens) /\
  (forall w, In w (frequentWords tokens) ->
             3 < String.length w /\ 1 < occurrences tokens w /\
             w <> "constructor" /\ w <> "__proto__") /\
  StronglySorted (fun a b => occurrences tokens b <= occurrences tokens a)
                 (frequentWords tokens) /\
  (forall w, List.length (frequentWords tokens) < 8 ->
             3 < String.length w -> 1 < occurrences tokens w ->
             w <> "constructor" -> w <> "__proto__" ->
             In w (frequentWords tokens)).
Proof.
  cbv zeta. generalize (tokenize text). intros tokens.
  unfold frequentWords.
  set (keep := fun e : string * Freq => moreThanOnce (snd e) && (3 <? String.length (fst e))).
  set (kept := filter keep (objectEntries (wordFreqOf tokens))).
  destruct (wordFreqOf_counted tokens) as [Hnd Hlook].
  assert (Hkept : forall e, In e kept ->
            snd e = Count (occurrences tokens (fst e)) /\
            1 < occurrences tokens (fst e) /\ 3 < String.length (fst e) /\
            fst e <> "constructor" /\ fst e <> "__proto__").
  { intros e He. apply filter_In in He as [He Hk].
    apply (Permutation_in _ (objectEntries_perm _)) in He.
    exact (frequent_entry tokens e He Hk). }
  assert (Hsorted_in : forall e, In e (firstn 8 (sort byFrequencyDescending kept)) ->
                                 In e kept).
  { intros e He. apply In_firstn in He.
    exact (Permutation_in _ (Permutation_sym (sort_perm _ kept)) He). }
  split; [|split; [|split; [|split]]].
  - rewrite length_map. apply firstn_le_length.
  - rewrite <- firstn_map. apply NoDup_firstn_list.
    apply (Permutation_NoDup (Permutation_map fst (sort_perm byFrequencyDescending kept))).
    unfold kept. apply NoDup_map_filter.
    apply (Permutation_NoDup
             (Permutation_map fst (Permutation_sym (objectEntries_perm (wordFreqOf tokens))))).
    exact Hnd.
  - intros w Hw. apply in_map_iff in Hw as [e [<- He]].
    destruct (Hkept e (Hsorted_in e He)) as (_ & H1 & H2 & H3 & H4). auto.
  - assert (Hs : StronglySorted (fun a b => countOf b <= countOf a)
                   (firstn 8 (sort byFrequencyDescending kept))).
    { apply StronglySorted_firstn.
      apply (sort_by_key byFrequencyDescending countOf isCount).
      - intros a b [m Ha] [n Hb]. unfold byFrequencyDescending, countOf.
        rewrite Ha, Hb.
        destruct (Z.gtb_spec (Z.of_nat n - Z.of_nat m) 0), (Nat.ltb_spec m n);
          try reflexivity; lia.
      - apply Forall_forall. intros e He. destruct (Hkept e He) as [E _].
        eexists. exact E. }
    revert Hs Hsorted_in. generalize (firstn 8 (sort byFrequencyDescending kept)).
    intros l Hs Hin. induction l as [|x l IH]; simpl; [constructor|].
    apply StronglySorted_inv in Hs as [Hs Hx].
    constructor; [apply IH; [exact Hs | intros e He; apply Hin; right; exact He]|].
    apply Forall_forall. intros w Hw. apply in_map_iff in Hw as [e [<- He]].
    rewrite Forall_forall in Hx. specialize (Hx e He).
    destruct (Hkept x (Hin x (or_introl eq_refl))) as [Ex _].
    destruct (Hkept e (Hin e (or_intror He))) as [Ee _].
    unfold countOf in Hx. rewrite Ex, Ee in Hx. exact Hx.
  - intros w Hshort Hlen Hocc Hcons Hproto.
    rewrite length_map in Hshort.
    assert (Hall : firstn 8 (sort byFrequencyDescending kept)
                   = sort byFrequencyDescending kept).
    { apply firstn_all2. rewrite length_firstn in Hshort. lia. }
    rewrite Hall. apply in_map_iff. exists (w, Count (occurrences tokens w)).
    split; [reflexivity|].
    apply (Permutation_in _ (sort_perm _ kept)).
    apply filter_In. split.
    + apply (Permutation_in _ (Permutation_sym (objectEntries_perm _))).
      apply lookup_In. rewrite Hlook.
      destruct (String.eqb_spec w "__proto__"); [contradiction|]. cbn [orb].
      destruct (Nat.eqb_spec (occurrences tokens w) 0); [lia|].
      unfold countedValue. destruct (String.eqb_spec w "constructor"); [contradiction|].
      reflexivity.
    + unfold keep. cbn [fst snd moreThanOnce].
      apply andb_true_intro. split; apply Nat.ltb_lt; assumption.
Qed.

Lemma frequentWords_spec_witness :
  In "garden"
     (frequentWords (tokenize "Garden, constructor, the garden: constructor the.")).
Proof.
  apply (frequentWords_spec "Garden, constructor, the garden: constructor the.");
    try discriminate; vm_compute; lia.
Defined.

(** ** Signature phrases *)

Section SignaturePhrases.
Variable originalText : string.

Let good : string -> Prop := isSignaturePhrase originalText.

Lemma templates_not_empty :
  forallb (fun phrase => 0 <? String.length phrase) allPhraseTemplates = true.
Proof. reflexivity. Qed.

Lemma template_good (phrase : string) : In phrase allPhraseTemplates -> good phrase.
Proof.
  intros H. split; [|left; exact H].
  pose proof templates_not_empty as Hall. rewrite forallb_forall in Hall.
  specialize (Hall phrase H). intros ->. discriminate Hall.
Qed.

Lemma pushChoice_good (array phrases : list string) (s : source) :
  array <> [] -> (forall phrase, In phrase array -> In phrase allPhraseTemplates) ->
  Forall good phrases -> Forall good (fst (pushChoice array phrases s)).
Proof.
  intros Hne Hsub Hgood. unfold pushChoice. rewrite bind_run. cbn [ret fst].
  apply Forall_app. split; [exact Hgood|].
  constructor; [|constructor]. apply template_good, Hsub, randomChoice_In, Hne.
Qed.

Lemma sentence_good (phrases : list string) (s : source) :
  Forall good phrases ->
  Forall good
    (fst ((if 0 <? List.length (filter isShortSentence (splitSentences originalText)) then
             sentence <- randomChoice (filter isShortSentence (splitSentences originalText)) ;;
             ret (phrases ++ [trim sentence])
           else ret phrases) s)).
Proof.
  intros Hgood.
  destruct (filter isShortSentence (splitSentences originalText)) as [|x short] eqn:E;
    [exact Hgood|].
  cbn [List.length Nat.ltb Nat.leb]. rewrite bind_run. cbn [ret fst].
  apply Forall_app. split; [exact Hgood|]. constructor; [|constructor].
  assert (Hin : In (fst (randomChoice (x :: short) s))
                   (filter isShortSentence (splitSentences originalText)))
    by (rewrite E; apply randomChoice_In; discriminate).
  apply filter_In in Hin as [Hin Hshort].
  split.
  - apply sentence_chars in Hin as [_ Hblank].
    pose proof (trim_not_blank _ Hblank) as Hlen. intros Hempty.
    rewrite Hempty in Hlen. simpl in Hlen. lia.
  - right. eexists. split; [exact Hin|]. split; [exact Hshort | reflexivity].
Qed.

Ltac templates :=
  intros phrase Hphrase; unfold allPhraseTemplates;
  repeat (apply in_or_app; (left; exact Hphrase) || right); exact Hphrase.

(** X9: [generateSignaturePhrases] returns at most 4 phrases; each is not
    empty and is one of the phrase templates or a short sentence of the
    text, trimmed. *)
Theorem generateSignaturePhrases_spec (analysis : Analysis) (s : source) :
  List.length (fst (generateSignaturePhrases analysis originalText s)) <= 4 /\
  Forall (isSignaturePhrase originalText)
         (fst (generateSignaturePhrases analysis originalText s)).
Proof.
  unfold generateSignaturePhrases. cbv zeta.
  rewrite bind_run.
  match goal with |- context [snd (?m s)] =>
    assert (H1 : Forall good (fst (m s)));
    [ destruct (gt (energy analysis) (Fin (7 # 10)));
      [| destruct (lt (energy analysis) (Fin (3 # 10)))];
      try (apply pushChoice_good; [discriminate | templates | constructor]); constructor
    | generalize dependent (fst (m s)); generalize (snd (m s)) ]
  end.
  intros s1 p1 H1. rewrite bind_run.
  match goal with |- context [snd (?m s1)] =>
    assert (H2 : Forall good (fst (m s1)));
    [ destruct (gt (formality analysis) (Fin (7 # 10)));
      [| destruct (lt (formality analysis) (Fin (3 # 10)))];
      try (apply pushChoice_good; [discriminate | templates | exact H1]); exact H1
    | generalize dependent (fst (m s1)); generalize (snd (m s1)) ]
  end.
  intros s2 p2 H2. rewrite bind_run.
  match goal with |- context [snd (?m s2)] =>
    assert (H3 : Forall good (fst (m s2)));
    [ destruct (polarity (sentiment analysis));
      try (apply pushChoice_good; [discriminate | templates | exact H2]); exact H2
    | generalize dependent (fst (m s2)); generalize (snd (m s2)) ]
  end.
  intros s3 p3 H3. rewrite bind_run.
  match goal with |- context [snd (?m s3)] =>
    assert (H4 : Forall good (fst (m s3)));
    [ destruct (topicsInclude (topics analysis) creativity);
      try (apply pushChoice_good; [discriminate | templates | exact H3]); exact H3
    | generalize dependent (fst (m s3)); generalize (snd (m s3)) ]
  end.
  intros s4 p4 H4. rewrite bind_run.
  match goal with |- context [snd (?m s4)] =>
    assert (H5 : Forall good (fst (m s4)));
    [ destruct (topicsInclude (topics analysis) technology);
      try (apply pushChoice_good; [discriminate | templates | exact H4]); exact H4
    | generalize dependent (fst (m s4)); generalize (snd (m s4)) ]
  end.
  intros s5 p5 H5. rewrite bind_run.
  pose proof (sentence_good p5 s5 H5) as H6.
  match goal with |- context [snd (?m s5)] =>
    generalize dependent (fst (m s5)); generalize (snd (m s5))
  end.
  intros s6 p6 H6. cbn [ret fst]. split; [apply firstn_le_length|].
  apply Forall_forall. intros phrase Hin. apply In_firstn in Hin.
  rewrite Forall_forall in H6. exact (H6 phrase Hin).
Qed.
End SignaturePhrases.

(** ** The welcome message *)

(** X10: the welcome message always holds the name of the persona. *)
Theorem generateWelcomeMessage_names (persona : Persona) (s : source) :
  includes (fst (generateWelcomeMessage persona s)) (name persona) = true.
Proof.
  unfold generateWelcomeMessage. cbv zeta. rewrite bind_run. cbn [ret fst].
  match goal with |- context [randomChoice ?templates s] =>
    pose proof (randomChoice_In templates s) as Hin;
    set (message := fst (randomChoice templates s)) in *
  end.
  assert (Hname : includes message (name persona) = true).
  { specialize (Hin ltac:(discriminate)).
    destruct Hin as [<-|[<-|[<-|[<-|[]]]]];
      apply includes_app_r, includes_app_l, includes_self. }
  destruct (0 <? String.length (emojiStyle persona)); [|exact Hname].
  apply includes_app_l. exact Hname.
Qed.

(** ** Answers *)

(** X11: an elaboration is a line of the library of a persona topic whose
    label is contained in a token, or the sentence built on one of the
    persona's favorite words, or, without favorite words, the fixed
    fallback sentence. *)
Theorem generateElaboration_forms (userTokens : list string) (persona : Persona)
  (s : source) :
  (exists topic library,
     In topic (Style.topics (communicationStyle persona)) /\
     existsb (fun token => includes token (topicName topic)) userTokens = true /\
     lookup (topicName topic) elaborations = Some library /\
     In (fst (generateElaboration userTokens persona s)) library) \/
  (exists word,
     In word (favoriteWords persona) /\
     fst (generateElaboration userTokens persona s) = favoriteWordSentence word) \/
  (favoriteWords persona = [] /\
   fst (generateElaboration userTokens persona s) = fallbackElaboration).
Proof.
  unfold generateElaboration. cbv zeta.
  assert (Hrest :
    (exists word,
       In word (favoriteWords persona) /\
       fst ((if 0 <? List.length (favoriteWords persona) then
               word <- randomChoice (favoriteWords persona) ;;
               ret ("I think " ++ word ++ " is really important in this context.")%string
             else ret "It's all about perspective and finding what works best!") s)
       = favoriteWordSentence word) \/
    (favoriteWords persona = [] /\
     fst ((if 0 <? List.length (favoriteWords persona) then
             word <- randomChoice (favoriteWords persona) ;;
             ret ("I think " ++ word ++ " is really important in this context.")%string
           else ret "It's all about perspective and finding what works best!") s)
     = fallbackElaboration)).
  { destruct (favoriteWords persona) as [|w ws] eqn:E.
    - right. split; reflexivity.
    - left. cbn [List.length Nat.ltb Nat.leb]. rewrite bind_run. cbn [ret fst].
      eexists. split; [apply randomChoice_In; discriminate | reflexivity]. }
  destruct (find _ (Style.topics (communicationStyle persona))) as [topic|] eqn:Hfind;
    [|right; exact Hrest].
  apply find_some in Hfind as [Hin Htoken].
  destruct (lookup (topicName topic) elaborations) as [library|] eqn:Hlib;
    [|right; exact Hrest].
  left. exists topic, library. repeat split; try assumption.
  apply randomChoice_In. destruct topic; simpl in Hlib; inversion Hlib; discriminate.
Qed.

(** X12: an answer is an opener, a space and an elaboration.  The opener
    comes from the "what" set when a token is "what"; when no token is
    "what", "how" or "why" it comes from the general set, also for a
    question with "when", "where", "who" or "which", which have no set of
    their own. *)
Theorem generateAnswerResponse_opener (userMessage : string) (userTokens : list string)
  (persona : Persona) (s : source) :
  exists template s',
    fst (generateAnswerResponse userMessage userTokens persona s)
    = (template ++ " " ++ fst (generateElaboration userTokens persona s'))%string /\
    (In "what" userTokens ->
     forall openers, lookup "what" answerTemplates = Some openers -> In template openers) /\
    (~ In "what" userTokens -> ~ In "how" userTokens -> ~ In "why" userTokens ->
     In template answerTemplates_general).
Proof.
  unfold generateAnswerResponse. cbv zeta. rewrite !bind_run. cbn [ret fst].
  set (questionType :=
         match find (fun word => arrayIncludes userTokens word) questionWords with
         | Some word => word
         | None => "general"
         end).
  set (openers := match lookup questionType answerTemplates with
                  | Some list => list
                  | None => answerTemplates_general
                  end).
  exists (fst (randomChoice openers s)), (snd (randomChoice openers s)).
  split; [reflexivity|].
  assert (Hin : In (fst (randomChoice openers s)) openers).
  { apply randomChoice_In. unfold openers.
    destruct (lookup questionType answerTemplates) as [list|] eqn:E; [|discriminate].
    unfold answerTemplates in E. simpl in E.
    repeat match type of E with
           | (if ?b then _ else _) = _ => destruct b; [inversion E; discriminate|]
           end.
    discriminate E. }
  assert (Hno : forall w, ~ In w userTokens -> arrayIncludes userTokens w = false).
  { intros w Hw. destruct (arrayIncludes userTokens w) eqn:E; [|reflexivity].
    apply arrayIncludes_In in E. contradiction. }
  split.
  - intros Hwhat l Hl. apply arrayIncludes_In in Hwhat.
    assert (Hq : questionType = "what")
      by (unfold questionType, questionWords; cbn [find]; rewrite Hwhat; reflexivity).
    unfold openers in Hin |- *. rewrite Hq, Hl in Hin. rewrite Hq, Hl. exact Hin.
  - intros Hwhat Hhow Hwhy.
    assert (Hq : In questionType ["when"; "where"; "who"; "which"; "general"]).
    { unfold questionType, questionWords. cbn [find].
      rewrite (Hno _ Hwhat), (Hno _ Hhow), (Hno _ Hwhy).
      destruct (arrayIncludes userTokens "when"); [simpl; tauto|].
      destruct (arrayIncludes userTokens "where"); [simpl; tauto|].
      destruct (arrayIncludes userTokens "who"); [simpl; tauto|].
      destruct (arrayIncludes userTokens "which"); simpl; tauto. }
    unfold openers in Hin.
    destruct Hq as [<-|[<-|[<-|[<-|[<-|[]]]]]]; exact Hin.
Qed.

Lemma generateAnswerResponse_opener_witness :
  exists template s',
    fst (generateAnswerResponse "when is it?" ["when"; "is"; "it"] curiousPersona sampleSource)
    = (template ++ " " ++ fst (generateElaboration ["when"; "is"; "it"] curiousPersona s'))%string /\
    In template answerTemplates_general.
Proof.
  destruct (generateAnswerResponse_opener "when is it?" ["when"; "is"; "it"]
              curiousPersona sampleSource) as (template & s' & E & _ & Hgeneral).
  exists template, s'. split; [exact E|].
  apply Hgeneral; simpl; intuition discriminate.
Defined.

(** ** Replies *)

Lemma append_not_empty_l (s t : string) : s <> "" -> (s ++ t)%string <> "".
Proof. destruct s; [congruence | discriminate]. Qed.

Lemma append_space_not_empty (s t : string) : (s ++ " " ++ t)%string <> "".
Proof. destruct s; discriminate. Qed.

Lemma replaceWord_not_empty (pat rep s : string) :
  rep <> "" -> s <> "" -> replaceWord pat rep s <> "".
Proof.
  intros Hrep Hs. unfold replaceWord. destruct s as [|c s]; [congruence|].
  cbn [replaceFrom].
  destruct (wordBoundary None (Some c) && matchesLiteral pat (String c s) None);
    [apply append_not_empty_l; exact Hrep | discriminate].
Qed.

Lemma formalityStyled_not_empty (persona : Persona) (response : string) :
  response <> "" -> formalityStyled persona response <> "".
Proof.
  intros H. unfold formalityStyled, makeFormal, makeInformal.
  destruct (gt _ _); [|destruct (lt _ _)]; [| |exact H];
    repeat (apply replaceWord_not_empty; [discriminate|]); exact H.
Qed.

(** X13: the reply is never the empty string, whatever the persona, the
    utterance and the random choices. *)
Theorem generateResponse_not_empty (persona : Persona) (userMessage : string) (s : source) :
  fst (generateResponse persona userMessage s) <> "".
Proof.
  rewrite generateResponse_run. cbv zeta.
  match goal with
  | |- context [applyPersonaStyle ?r persona ?s'] =>
      destruct (applyPersonaStyle_appends r persona s') as [tail [E _]];
      rewrite E; assert (Hdraft : r <> "")
  end.
  { destruct (includes userMessage "?").
    - unfold generateAnswerResponse. rewrite !bind_run. cbn [ret fst].
      apply append_space_not_empty.
    - unfold generateReactiveResponse. rewrite !bind_run. cbn [ret fst].
      apply append_space_not_empty. }
  apply append_not_empty_l, formalityStyled_not_empty, Hdraft.
Qed.

(** ** Contractions *)

Lemma eqi_apostrophe (c : ascii) : eqi "'" c = true -> c = "'"%char.
Proof. each_char c. Qed.

Lemma matchesLiteral_apostrophe (pat s : string) (before : option ascii) :
  allChars (notChar "'") pat = false ->
  allChars (notChar "'") s = true ->
  matchesLiteral pat s before = false.
Proof.
  revert s before. induction pat as [|a pat IH]; intros s before Hpat Hs;
    [discriminate Hpat|].
  destruct s as [|b s]; [reflexivity|].
  cbn [matchesLiteral]. cbn [allChars] in Hpat, Hs.
  apply andb_prop in Hs as [Hb Hs].
  destruct (eqi a b) eqn:E; [|reflexivity]. cbn [andb].
  destruct (notChar "'" a) eqn:Ha.
  - apply IH; [exact Hpat | exact Hs].
  - unfold notChar in Ha, Hb.
    destruct (Ascii.eqb_spec a "'") as [->|]; [|discriminate Ha].
    apply eqi_apostrophe in E. subst b. discriminate Hb.
Qed.

Lemma replaceFrom_apostrophe (pat rep s : string) (before : option ascii) :
  allChars (notChar "'") pat = false ->
  allChars (notChar "'") s = true ->
  replaceFrom pat rep s before 0 = s.
Proof.
  intros Hpat. revert before. induction s as [|c s IH]; intros before Hs; [reflexivity|].
  cbn [replaceFrom]. rewrite (matchesLiteral_apostrophe pat _ before Hpat Hs).
  rewrite andb_false_r. f_equal. apply IH.
  cbn [allChars] in Hs. apply andb_prop in Hs. tauto.
Qed.

(** X14: [makeFormal] leaves a reply without an apostrophe as it is: each
    of its five patterns holds one. *)
Theorem makeFormal_plain (response : string) :
  allChars (notChar "'") response = true -> makeFormal response = response.
Proof.
  intros H. unfold makeFormal, replaceWord.
  rewrite (replaceFrom_apostrophe "that's" _ response None eq_refl H).
  rewrite (replaceFrom_apostrophe "can't" _ response None eq_refl H).
  rewrite (replaceFrom_apostrophe "won't" _ response None eq_refl H).
  rewrite (replaceFrom_apostrophe "I'm" _ response None eq_refl H).
  apply (replaceFrom_apostrophe "you're" _ response None eq_refl H).
Qed.

Lemma makeFormal_plain_witness :
  makeFormal "Interesting! What do you think about it?"
  = "Interesting! What do you think about it?".
Proof.
  apply (makeFormal_plain "Interesting! What do you think about it?"). reflexivity.
Defined.

(** ** Saved personas *)

Section Saved.
Variable personaId : string.

Let sameId (p : SavedPersona) : bool := String.eqb (id p) personaId.

Lemma findIndex_none (l : list SavedPersona) :
  findIndex sameId l = None -> forall p, In p l -> id p <> personaId.
Proof.
  induction l as [|x l IH]; simpl; [intros _ p []|].
  destruct (sameId x) eqn:E; [discriminate|].
  destruct (findIndex sameId l); [discriminate|].
  intros _ p [<-|Hp]; [|auto].
  unfold sameId in E. apply String.eqb_neq. exact E.
Qed.

Lemma find_push (l : list SavedPersona) (e : SavedPersona) :
  id e = personaId -> findIndex sameId l = None ->
  find sameId (l ++ [e]) = Some e /\
  findIndex sameId (l ++ [e]) = Some (List.length l) /\
  assignAt (List.length l) e (l ++ [e]) = l ++ [e].
Proof.
  intros He. induction l as [|x l IH]; simpl.
  - intros _. unfold sameId. rewrite He, String.eqb_refl. auto.
  - destruct (sameId x); [discriminate|].
    destruct (findIndex sameId l); [discriminate|].
    intros _. destruct (IH eq_refl) as (H1 & H2 & H3).
    rewrite H1, H2, H3. auto.
Qed.

Lemma find_assign (l : list SavedPersona) (e : SavedPersona) (i : nat) :
  id e = personaId -> findIndex sameId l = Some i ->
  find sameId (assignAt i e l) = Some e /\
  findIndex sameId (assignAt i e l) = Some i /\
  assignAt i e (assignAt i e l) = assignAt i e l /\
  map id (assignAt i e l) = map id l /\
  List.length (assignAt i e l) = List.length l.
Proof.
  intros He. revert i. induction l as [|x l IH]; simpl; [discriminate|].
  intros i. destruct (sameId x) eqn:E.
  - intros Hi. inversion Hi; subst i. simpl.
    unfold sameId in *. rewrite He, String.eqb_refl.
    apply String.eqb_eq in E. rewrite E. auto.
  - destruct (findIndex sameId l) as [j|]; [|discriminate].
    intros Hi. inversion Hi; subst i. simpl. rewrite E.
    destruct (IH j eq_refl) as (H1 & H2 & H3 & H4 & H5).
    rewrite H1, H2, H3, H4, H5. auto.
Qed.
End Saved.

(** X15: after [saveCurrentPersona] the saved personas hold the current
    persona under its identifier, and saving again changes nothing.  From
    then on [loadPersona] with that identifier makes the saved persona
    current, whichever persona is current by then, another one or none, and
    it leaves the saved personas and the chat history as they are;
    [loadPersona] with an identifier that no saved persona has changes
    nothing. *)
Theorem save_then_load (this : PersonaWriter) (e : SavedPersona) :
  currentPersona this = Some e ->
  let saved := savedPersonas (saveCurrentPersona this) in
  currentPersona (loadPersona (id e) (saveCurrentPersona this)) = Some e /\
  find (fun p => String.eqb (id p) (id e)) saved = Some e /\
  saveCurrentPersona (saveCurrentPersona this) = saveCurrentPersona this /\
  (forall (other : option SavedPersona) (history : list Turn),
     loadPersona (id e) (mkWriter other saved history)
     = mkWriter (Some e) saved history) /\
  (forall (personaId : string) (other : option SavedPersona) (history : list Turn),
     (forall p, In p saved -> id p <> personaId) ->
     loadPersona personaId (mkWriter other saved history)
     = mkWriter other saved history).
Proof.
  intros Hcur. cbv zeta.
  assert (Hmain :
    find (fun p => String.eqb (id p) (id e)) (savedPersonas (saveCurrentPersona this))
    = Some e /\
    saveCurrentPersona (saveCurrentPersona this) = saveCurrentPersona this /\
    currentPersona (saveCurrentPersona this) = Some e).
  { destruct (findIndex (fun p => String.eqb (id p) (id e)) (savedPersonas this))
      as [i|] eqn:Hidx.
    - assert (Hsave : saveCurrentPersona this
                      = mkWriter (Some e) (assignAt i e (savedPersonas this))
                                 (chatHistory this))
        by (unfold saveCurrentPersona; rewrite Hcur, Hidx; reflexivity).
      destruct (find_assign (id e) _ e i eq_refl Hidx) as (H1 & H2 & H3 & _).
      rewrite Hsave. unfold saveCurrentPersona.
      cbn [savedPersonas currentPersona chatHistory]. rewrite H1, H2, H3. auto.
    - assert (Hsave : saveCurrentPersona this
                      = mkWriter (Some e) (savedPersonas this ++ [e]) (chatHistory this))
        by (unfold saveCurrentPersona; rewrite Hcur, Hidx; reflexivity).
      destruct (find_push (id e) _ e eq_refl Hidx) as (H1 & H2 & H3).
      rewrite Hsave. unfold saveCurrentPersona.
      cbn [savedPersonas currentPersona chatHistory]. rewrite H1, H2, H3. auto. }
  destruct Hmain as (Hfind & Hagain & Hsame).
  split; [|split; [exact Hfind|split; [exact Hagain|split]]].
  - unfold loadPersona. rewrite Hfind. reflexivity.
  - intros other history. unfold loadPersona.
    cbn [savedPersonas chatHistory]. rewrite Hfind. reflexivity.
  - intros personaId other history Hnone. unfold loadPersona.
    cbn [savedPersonas].
    destruct (find (fun p => String.eqb (id p) personaId) _) as [p|] eqn:Hp;
      [|reflexivity].
    apply find_some in Hp as [Hin Hid]. apply String.eqb_eq in Hid.
    destruct (Hnone p Hin Hid).
Qed.

Lemma save_then_load_witness :
  loadPersona "k2"
    (mkWriter (Some (mkSaved "k1" samplePersona))
              (savedPersonas (saveCurrentPersona sampleWriter)) [])
  = mkWriter (Some (mkSaved "k2" curiousPersona))
             (savedPersonas (saveCurrentPersona sampleWriter)) [].
Proof.
  destruct (save_then_load sampleWriter (mkSaved "k2" curiousPersona) eq_refl)
    as (_ & _ & _ & H & _).
  exact (H (Some (mkSaved "k1" samplePersona)) []).
Defined.

(** X16: the saved personas keep distinct identifiers: when no two of them
    share an identifier, none do after [saveCurrentPersona], [loadPersona],
    [deletePersona] or [clearAllPersonas]; a save adds one persona for a new
    identifier and none for a known one. *)
Theorem saved_ids_distinct (this : PersonaWriter) (personaId : string) (confirmed : bool) :
  NoDup (savedIds this) ->
  NoDup (savedIds (saveCurrentPersona this)) /\
  NoDup (savedIds (loadPersona personaId this)) /\
  NoDup (savedIds (deletePersona personaId confirmed this)) /\
  NoDup (savedIds (clearAllPersonas confirmed this)) /\
  (forall e, currentPersona this = Some e ->
     List.length (savedPersonas (saveCurrentPersona this))
     = if existsb (String.eqb (id e)) (savedIds this)
       then List.length (savedPersonas this)
       else S (List.length (savedPersonas this))).
Proof.
  intros Hnd. unfold savedIds in *. split; [|split; [|split; [|split]]].
  - unfold saveCurrentPersona. destruct (currentPersona this) as [e|]; [|exact Hnd].
    destruct (findIndex _ (savedPersonas this)) as [i|] eqn:Hidx;
      cbn [savedPersonas].
    + destruct (find_assign (id e) _ e i eq_refl Hidx) as (_ & _ & _ & Hmap & _).
      rewrite Hmap. exact Hnd.
    + rewrite map_app. cbn [map].
      apply NoDup_app; [exact Hnd | constructor; [intros [] | constructor] |].
      intros k Hk [<-|[]]. apply in_map_iff in Hk as [p [Hp Hin]].
      exact (findIndex_none (id e) _ Hidx p Hin Hp).
  - unfold loadPersona. destruct (find _ _); exact Hnd.
  - unfold deletePersona. destruct confirmed; [|exact Hnd].
    cbn [savedPersonas]. apply NoDup_map_filter. exact Hnd.
  - unfold clearAllPersonas. destruct confirmed; [constructor | exact Hnd].
  - intros e Hcur. unfold saveCurrentPersona. rewrite Hcur.
    destruct (findIndex _ (savedPersonas this)) as [i|] eqn:Hidx;
      cbn [savedPersonas].
    + destruct (find_assign (id e) _ e i eq_refl Hidx) as (Hfind & _ & _ & Hmap & Hlen).
      rewrite Hlen.
      replace (existsb (String.eqb (id e)) (map id (savedPersonas this))) with true;
        [reflexivity|].
      symmetry. apply existsb_exists. exists (id e). split; [|apply String.eqb_refl].
      rewrite <- Hmap. apply find_some in Hfind as [Hin _].
      apply in_map_iff. exists e. auto.
    + rewrite length_app. cbn [List.length]. rewrite Nat.add_1_r.
      destruct (existsb (String.eqb (id e)) (map id (savedPersonas this))) eqn:E;
        [|reflexivity].
      apply existsb_exists in E as [k [Hk Heq]]. apply String.eqb_eq in Heq. subst k.
      apply in_map_iff in Hk as [p [Hp Hin]].
      destruct (findIndex_none (id e) _ Hidx p Hin Hp).
Qed.

Lemma saved_ids_distinct_witness :
  NoDup (savedIds (saveCurrentPersona sampleWriter)) /\
  NoDup (savedIds (deletePersona "k1" true sampleWriter)).
Proof.
  destruct (saved_ids_distinct sampleWriter "k1" true) as (H1 & _ & H3 & _).
  - repeat constructor; simpl; intuition discriminate.
  - split; assumption.
Defined.

(** X17: a confirmed [deletePersona] removes every saved persona with the
    identifier and keeps the others in their order; the current persona is
    dropped exactly when it has the identifier: a current persona with
    another identifier stays current; the chat history is untouched;
    loading the identifier afterwards changes nothing; and a delete that is
    not confirmed changes nothing. *)
Theorem deletePersona_spec (this : PersonaWriter) (personaId : string) :
  let after := deletePersona personaId true this in
  savedPersonas after
  = filter (fun p => negb (String.eqb (id p) personaId)) (savedPersonas this) /\
  (forall p, In p (savedPersonas after) -> id p <> personaId) /\
  (forall p, currentPersona after = Some p ->
             id p <> personaId /\ currentPersona this = Some p) /\
  loadPersona personaId after = after /\
  deletePersona personaId false this = this /\
  (forall p, currentPersona this = Some p -> id p <> personaId ->
             currentPersona after = Some p) /\
  (forall p, currentPersona this = Some p -> id p = personaId ->
             currentPersona after = None) /\
  (currentPersona this = None -> currentPersona after = None) /\
  chatHistory after = chatHistory this.
Proof.
  cbv zeta. unfold deletePersona. cbn [savedPersonas currentPersona chatHistory].
  split; [reflexivity|].
  assert (Hgone : forall p, In p (filter (fun p => negb (String.eqb (id p) personaId))
                                         (savedPersonas this)) -> id p <> personaId).
  { intros p Hp. apply filter_In in Hp as [_ Hp]. apply String.eqb_neq.
    destruct (String.eqb (id p) personaId); [discriminate | reflexivity]. }
  split; [exact Hgone|].
  split; [|split; [|split; [reflexivity|split; [|split; [|split; [|reflexivity]]]]]].
  - intros p. destruct (currentPersona this) as [q|]; [|discriminate].
    destruct (String.eqb_spec (id q) personaId); [discriminate|].
    intros E. inversion E; subst. auto.
  - unfold loadPersona. cbn [savedPersonas].
    destruct (find _ _) as [p|] eqn:Hfind; [|reflexivity].
    apply find_some in Hfind as [Hin Hid]. apply String.eqb_eq in Hid.
    destruct (Hgone p Hin Hid).
  - intros p -> Hid. destruct (String.eqb_spec (id p) personaId);
      [contradiction | reflexivity].
  - intros p -> Hid. rewrite Hid, String.eqb_refl. reflexivity.
  - intros ->. reflexivity.
Qed.

(** ** Chat figures *)

Lemma turns_partition (history : list Turn) :
  List.length (filter isUser history) + List.length (filter isBot history)
  = List.length history.
Proof.
  induction history as [|[[] text] history IH]; simpl; lia.
Qed.

(** X18: in the chat figures the user's messages and the bot's responses
    add up to the number of messages; the conversation score is 5 a
    message, capped at 100, which it reaches at 20 messages; and the
    engagement is High above 10 messages, Medium from 6 to 10, Low below. *)
Theorem updateChatStats_spec (this : PersonaWriter) (stats : ChatStats) :
  updateChatStats this = Some stats ->
  messages stats = List.length (chatHistory this) /\
  yourMessages stats + aiResponses stats = messages stats /\
  conversationScore stats <= 100 /\
  (messages stats <= 20 -> conversationScore stats = 5 * messages stats) /\
  (20 <= messages stats -> conversationScore stats = 100) /\
  (engagementLevel stats = High <-> 10 < messages stats) /\
  (engagementLevel stats = Medium <-> 5 < messages stats <= 10) /\
  (engagementLevel stats = Low <-> messages stats <= 5).
Proof.
  unfold updateChatStats. destruct (currentPersona this); [|discriminate].
  remember (Nat.min 100 (List.length (chatHistory this) * 5)) as score eqn:Hscore.
  intros E. injection E as <-.
  cbn [messages yourMessages aiResponses conversationScore engagementLevel].
  pose proof (turns_partition (chatHistory this)).
  set (n := List.length (chatHistory this)) in *.
  split; [reflexivity|]. split; [assumption|].
  split; [lia|]. split; [lia|]. split; [lia|].
  destruct (Nat.ltb_spec 10 n); [|destruct (Nat.ltb_spec 5 n)];
    repeat split; intros; try discriminate; try reflexivity; lia.
Qed.

Lemma updateChatStats_spec_witness :
  exists stats,
    updateChatStats sampleWriter = Some stats /\
    yourMessages stats + aiResponses stats = messages stats /\
    engagementLevel stats = Low.
Proof.
  eexists. split; [reflexivity|].
  destruct (updateChatStats_spec sampleWriter _ eq_refl)
    as (_ & Hsum & _ & _ & _ & _ & _ & Hlow).
  split; [exact Hsum | reflexivity].
Defined.

(** ** Stability of the sort *)

Section SortStable.
Context {A : Type} (cmp : A -> A -> Z) (key : A -> nat) (P : A -> Prop).
Context (before : A -> A -> Prop).
Hypothesis cmp_key : forall a b, P a -> P b -> (cmp a b >? 0)%Z = (key a <? key b).

Let ordered (a b : A) : Prop := key b < key a \/ (key a = key b /\ before a b).

Lemma sortInsert_stable (x : A) (l : list A) :
  P x -> Forall P l -> Forall (before x) l ->
  StronglySorted ordered l -> StronglySorted ordered (sortInsert cmp x l).
Proof.
  intros Hx. induction l as [|y l IH]; intros HP Hb Hs; simpl.
  - constructor; constructor.
  - apply StronglySorted_inv in Hs as [Hs Hy].
    pose proof (Forall_inv HP) as Py. pose proof (Forall_inv_tail HP) as HP'.
    pose proof (Forall_inv Hb) as Bxy. pose proof (Forall_inv_tail Hb) as Hb'.
    rewrite (cmp_key x y Hx Py).
    destruct (Nat.ltb_spec (key x) (key y)) as [Hlt|Hge].
    + constructor; [apply IH; assumption|].
      apply Forall_forall. intros z Hz.
      apply (Permutation_in _ (Permutation_sym (sortInsert_perm cmp x l))) in Hz.
      destruct Hz as [<-|Hz]; [left; exact Hlt|]. rewrite Forall_forall in Hy. auto.
    + constructor; [constructor; assumption|].
      apply Forall_forall. intros z [<-|Hz].
      * unfold ordered. destruct (Nat.eq_dec (key x) (key y)); [right; auto | left; lia].
      * rewrite Forall_forall in Hy, Hb'. specialize (Hy z Hz). specialize (Hb' z Hz).
        unfold ordered in *.
        destruct (Nat.eq_dec (key x) (key z)); [right; auto | left; lia].
Qed.

Lemma sort_stable (l : list A) :
  Forall P l -> StronglySorted before l -> StronglySorted ordered (sort cmp l).
Proof.
  induction l as [|x l IH]; intros HP Hs; simpl; [constructor|].
  apply StronglySorted_inv in Hs as [Hs Hx].
  pose proof (Forall_inv_tail HP) as HP'.
  apply sortInsert_stable; [exact (Forall_inv HP) | | | apply IH; assumption].
  - apply Forall_forall. intros y Hy.
    apply (Permutation_in _ (Permutation_sym (sort_perm cmp l))) in Hy.
    rewrite Forall_forall in HP'. auto.
  - apply Forall_forall. intros y Hy.
    apply (Permutation_in _ (Permutation_sym (sort_perm cmp l))) in Hy.
    rewrite Forall_forall in Hx. auto.
Qed.
End SortStable.

Lemma StronglySorted_two_parts {A : Type} (first : A -> bool) (l1 l2 : list A) :
  (forall a, In a l1 -> first a = true) ->
  (forall b, In b l2 -> first b = false) ->
  StronglySorted (fun a b => first a = false -> first b = false) (l1 ++ l2).
Proof.
  intros H1 H2. induction l1 as [|x l1 IH]; simpl.
  - induction l2 as [|y l2 IH2]; constructor.
    + apply IH2. intros b Hb. apply H2. right. exact Hb.
    + apply Forall_forall. intros b Hb _. apply H2. right. exact Hb.
  - constructor; [apply IH; intros a Ha; apply H1; right; exact Ha|].
    apply Forall_forall. intros b _ Hx.
    rewrite (H1 x (or_introl eq_refl)) in Hx. discriminate Hx.
Qed.

(** X19: among the frequent words of a text with the same number of
    occurrences, the words that are array indices (canonical numerals such as "2024") come
    before the others, wherever they stand in the text: [Object.entries]
    lists such keys first. *)
Theorem frequentWords_numerals_first (text : string) :
  let tokens := tokenize text in
  StronglySorted
    (fun a b => occurrences tokens b < occurrences tokens a \/
                (occurrences tokens a = occurrences tokens b /\
                 (isArrayIndex a = false -> isArrayIndex b = false)))
    (frequentWords tokens).
Proof.
  cbv zeta. generalize (tokenize text). intros tokens.
  unfold frequentWords.
  set (keep := fun e : string * Freq => moreThanOnce (snd e) && (3 <? String.length (fst e))).
  set (kept := filter keep (objectEntries (wordFreqOf tokens))).
  set (first := fun e : string * Freq => isArrayIndex (fst e)).
  assert (Hkept : forall e, In e kept -> snd e = Count (occurrences tokens (fst e))).
  { intros e He. apply filter_In in He as [He Hk].
    apply (Permutation_in _ (objectEntries_perm _)) in He.
    exact (proj1 (frequent_entry tokens e He Hk)). }
  assert (Hbefore : StronglySorted (fun a b => first a = false -> first b = false) kept).
  { unfold kept. apply StronglySorted_filter. unfold objectEntries.
    apply (StronglySorted_two_parts first).
    - intros a Ha.
      apply (Permutation_in _ (Permutation_sym (sort_perm _ _))) in Ha.
      apply filter_In in Ha. tauto.
    - intros b Hb. apply filter_In in Hb as [_ Hb]. unfold first.
      destruct (isArrayIndex (fst b)); [discriminate | reflexivity]. }
  assert (Hs : StronglySorted
                 (fun a b => countOf b < countOf a \/
                             (countOf a = countOf b /\ (first a = false -> first b = false)))
                 (firstn 8 (sort byFrequencyDescending kept))).
  { apply StronglySorted_firstn.
    apply (sort_stable byFrequencyDescending countOf isCount).
    - intros a b [m Ha] [n Hb]. unfold byFrequencyDescending, countOf.
      rewrite Ha, Hb.
      destruct (Z.gtb_spec (Z.of_nat n - Z.of_nat m) 0), (Nat.ltb_spec m n);
        try reflexivity; lia.
    - apply Forall_forall. intros e He. eexists. exact (Hkept e He).
    - exact Hbefore. }
  assert (Hin : forall e, In e (firstn 8 (sort byFrequencyDescending kept)) -> In e kept).
  { intros e He. apply In_firstn in He.
    exact (Permutation_in _ (Permutation_sym (sort_perm _ kept)) He). }
  revert Hs Hin. generalize (firstn 8 (sort byFrequencyDescending kept)).
  intros l Hs Hin. induction l as [|x l IH]; simpl; [constructor|].
  apply StronglySorted_inv in Hs as [Hs Hx].
  constructor; [apply IH; [exact Hs | intros e He; apply Hin; right; exact He]|].
  apply Forall_forall. intros w Hw. apply in_map_iff in Hw as [e [<- He]].
  rewrite Forall_forall in Hx. specialize (Hx e He).
  unfold countOf, first in Hx.
  rewrite (Hkept x (Hin x (or_introl eq_refl))), (Hkept e (Hin e (or_intror He))) in Hx.
  exact Hx.
Qed.

(** ** Traits, again *)

Lemma NoDup_pushIf (b : bool) (y : string) (l : list string) :
  NoDup l -> ~ In y l -> NoDup (pushIf b y l).
Proof.
  intros Hl Hy. unfold pushIf. destruct b; [|exact Hl].
  apply NoDup_app; [exact Hl | constructor; [intros [] | constructor] |].
  intros a Ha [<-|[]]. contradiction.
Qed.

Lemma base_traits (analysis : Analysis) :
  In (formalityTrait analysis) formalityTraits /\
  In (energyTrait analysis) energyTraits /\
  In (sentimentTrait analysis) ["Optimistic"; "Thoughtful"].
Proof.
  unfold formalityTrait, energyTrait, sentimentTrait.
  destruct (gt (formality analysis) (Fin (7 # 10))),
           (lt (formality analysis) (Fin (3 # 10))),
           (gt (energy analysis) (Fin (7 # 10))),
           (lt (energy analysis) (Fin (3 # 10))),
           (polarity (sentiment analysis)); simpl; tauto.
Qed.

Ltac trait_absent :=
  let H := fresh "H" in
  intros H;
  repeat (apply In_pushIf in H as [H|[_ H]]; [|try discriminate H]);
  match goal with
  | Hf : In (formalityTrait ?a) _, He : In (energyTrait ?a) _,
    Hs : In (sentimentTrait ?a) _ |- _ =>
      simpl in Hf, He, Hs, H;
      repeat match goal with
             | D : _ \/ _ |- _ => destruct D as [D|D]
             | D : False |- _ => destruct D
             end;
      congruence
  end.

(** X20: the traits list never holds a trait twice. *)
Theorem mapTraits_NoDup (analysis : Analysis) : NoDup (mapTraits analysis).
Proof.
  rewrite mapTraits_unfold. apply NoDup_firstn_list. unfold conditionalTraits.
  destruct (base_traits analysis) as (Hf & He & Hs).
  repeat (apply NoDup_pushIf; [|trait_absent]).
  constructor; [|constructor; [intros [] | constructor]].
  intros [H|[]]. simpl in Hf, He.
  repeat match goal with
         | D : _ \/ _ |- _ => destruct D as [D|D]
         | D : False |- _ => destruct D
         end; congruence.
Qed.

(** ** The chat box *)

(** X21: [sendMessage] ignores an input made of white space only, and any
    input while no persona is current; otherwise it appends one user turn,
    which holds the trimmed input and is not empty, and touches nothing
    else.  The delayed reply is refused exactly when no persona is current
    by then. *)
Theorem sendMessage_spec (input : string) (this : PersonaWriter) :
  (allChars isSpace input = true -> sendMessage input this = this) /\
  (currentPersona this = None -> sendMessage input this = this) /\
  (forall e, currentPersona this = Some e -> allChars isSpace input = false ->
     trim input <> "" /\
     chatHistory (sendMessage input this)
     = chatHistory this ++ [mkTurn user (trim input)] /\
     savedPersonas (sendMessage input this) = savedPersonas this /\
     currentPersona (sendMessage input this) = Some e) /\
  (forall message, deliverResponse message this = None <-> currentPersona this = None).
Proof.
  unfold sendMessage, deliverResponse. cbv zeta. rewrite trim_test.
  split; [|split; [|split]].
  - intros ->. reflexivity.
  - intros ->. destruct (negb (negb (allChars isSpace input))); reflexivity.
  - intros e Hcur Hblank. rewrite Hblank, Hcur. cbn [negb].
    split; [|repeat split; assumption].
    pose proof (trim_not_blank input Hblank) as Hlen.
    intros E. rewrite E in Hlen. simpl in Hlen. lia.
  - intros message. destruct (currentPersona this); split; congruence.
Qed.

Lemma sendMessage_spec_witness :
  chatHistory (sendMessage "  So true  " sampleWriter)
  = chatHistory sampleWriter ++ [mkTurn user "So true"].
Proof.
  destruct (sendMessage_spec "  So true  " sampleWriter) as (_ & _ & H & _).
  destruct (H (mkSaved "k2" curiousPersona) eq_refl eq_refl) as (_ & E & _).
  exact E.
Defined.

Lemma deletePersona_spec_witness :
  currentPersona (deletePersona "k1" true sampleWriter)
  = Some (mkSaved "k2" curiousPersona).
Proof.
  destruct (deletePersona_spec sampleWriter "k1") as (_ & _ & _ & _ & _ & H & _).
  apply (H (mkSaved "k2" curiousPersona)); [reflexivity | discriminate].
Defined.
